(** * SwiftAttend: registration and check-in handlers of [frontend/app.py]

    A shallow embedding of the Flask handlers over an explicit model of the
    three SQLAlchemy tables.  Every handler is a computation in a small
    state-and-early-exit monad over the [world] (database, flashed messages,
    mock mail log); what Flask and SQLAlchemy supply at run time (the clock,
    [uuid.uuid4()], the external host URL) is passed in as [env]. *)

From Stdlib Require Import String Ascii List Bool Arith ZArith Lia.
From Stdlib Require Import Sorted Permutation.
From ExtLib Require Import Structures.Monad.
Import ListNotations.
Import MonadNotation.
Local Open Scope string_scope.
Local Open Scope list_scope.
Local Open Scope monad_scope.

(** ** Values *)

(** [datetime.utcnow()]: seconds since the epoch, UTC. *)
Definition datetime := Z.

Definition digit (n : Z) : ascii := ascii_of_nat (48 + Z.to_nat (n mod 10)).

Definition two_digits (n : Z) : string :=
  String (digit (n / 10)) (String (digit n) EmptyString).

(** [t.strftime("%H:%M")] *)
Definition strftime_HM (t : datetime) : string :=
  two_digits ((t / 3600) mod 24) ++ ":" ++ two_digits ((t / 60) mod 60).

(** Python truthiness of a string, and of [dict.get] results ([None] when the
    key is absent). *)
Definition truthy (s : string) : bool := negb (s =? EmptyString).

Definition truthy_opt (o : option string) : bool :=
  match o with
  | Some s => truthy s
  | None => false
  end.

(** A [dict] with string keys and values: [request.form], and the JSON object
    returned by [request.get_json()]. *)
Definition dict := list (string * string).

Fixpoint dict_get (d : dict) (k : string) : option string :=
  match d with
  | [] => None
  | (k', v) :: d' => if k' =? k then Some v else dict_get d' k
  end.

(** ** Models *)

Module Event.
Record t := mk {
  id : string;
  name : string;
  date : datetime;
  location : string;
  description : option string;
  created_at : datetime
}.
End Event.

Module Participant.
Record t := mk {
  id : string;
  event_id : string;
  name : string;
  student_id : string;
  email : string;
  registration_date : datetime
}.
End Participant.

Module Attendance.
Record t := mk {
  id : nat;
  participant_id : string;
  event_id : string;
  check_in_time : datetime
}.
End Attendance.

(** The three tables, rows in insertion (rowid) order. *)
Record db := mkdb {
  events : list Event.t;
  participants : list Participant.t;
  attendances : list Attendance.t
}.

(** ** Helper functions of the module *)

(** The image [qrcode.make(data, ...)] renders, named by the payload it
    encodes; [generate_qr_code_svg] returns its SVG text. *)
Inductive svg := SvgPathImage (data : string).

Definition generate_qr_code_svg (data : string) : svg := SvgPathImage data.

Definition qr_payload (s : svg) : string :=
  match s with SvgPathImage data => data end.

(** One call of [send_registration_email]: what the mock prints. *)
Record mail := mkmail {
  recipient_email : string;
  participant_name : string;
  event_name : string;
  qr_code_svg : svg
}.

(** ** Responses *)

Inductive endpoint :=
| admin_events_endpoint
| register_for_event_endpoint (event_id : string)
| show_participant_qr_endpoint (participant_id : string).

(** [url_for(endpoint, **values)] from the route rules.  Identifiers are
    [str(uuid.uuid4())]: hex digits and hyphens, which the URL builder leaves
    as they are. *)
Definition url_for (ep : endpoint) : string :=
  match ep with
  | admin_events_endpoint => "/admin/events"
  | register_for_event_endpoint event_id => "/event/" ++ event_id ++ "/register"
  | show_participant_qr_endpoint participant_id =>
      "/participant/" ++ participant_id ++ "/qr"
  end.

(** [url_for(..., _external=True)] *)
Definition url_for_external (host_url : string) (ep : endpoint) : string :=
  host_url ++ url_for ep.

Inductive exn :=
| NameError (name : string)
| AttributeError (attr : string)
| IntegrityError (constraint : string).

(** Values handed to [render_template] and to [jsonify]. *)
Inductive tvalue :=
| TEvent (e : Event.t)
| TParticipant (p : Participant.t)
| TParticipants (ps : list Participant.t)
| TCount (n : nat)
| TSvg (s : svg)
| TForm (f : dict).

Inductive jvalue :=
| JStr (s : string)
| JNum (n : nat).

Inductive response :=
| Rendered (template : string) (context : list (string * tvalue))
| Redirect (location : string)
| Json (status : nat) (body : list (string * jvalue))
| Abort (status : nat)
| InternalServerError (e : exn).

(** ** The handler monad *)

Record world := mkworld {
  store : db;
  flashes : list (string * string);
  outbox : list mail
}.

(** What a statement leaves behind: a value to go on with, the handler's
    response (a [return], or an [abort] that Flask turns into one), or an
    exception nobody catches. *)
Inductive outcome (A : Type) :=
| Value (a : A)
| Return (r : response)
| Raise (e : exn).
Arguments Value {A} a.
Arguments Return {A} r.
Arguments Raise {A} e.

Definition handler (A : Type) : Type := world -> outcome A * world.

#[export] Instance Monad_handler : Monad handler := {|
  ret := fun A (a : A) w => (Value a, w);
  bind := fun A B (c : handler A) (k : A -> handler B) w =>
    match c w with
    | (Value a, w') => k a w'
    | (Return r, w') => (Return r, w')
    | (Raise e, w') => (Raise e, w')
    end
|}.

Definition return_ {A} (r : response) : handler A := fun w => (Return r, w).
Definition raise {A} (e : exn) : handler A := fun w => (Raise e, w).
Definition abort {A} (status : nat) : handler A := return_ (Abort status).
Definition get_db : handler db := fun w => (Value (store w), w).
Definition put_db (d : db) : handler unit :=
  fun w => (Value tt, mkworld d (flashes w) (outbox w)).

(** [flash(message, category)] *)
Definition flash (message category : string) : handler unit :=
  fun w => (Value tt, mkworld (store w) (flashes w ++ [(message, category)]) (outbox w)).

(** The response Flask sends for a handler run, and the world it leaves. *)
Definition serve (h : handler response) (w : world) : response * world :=
  match h w with
  | (Value r, w') => (r, w')
  | (Return r, w') => (r, w')
  | (Raise e, w') => (InternalServerError e, w')
  end.

(** ** Queries and commits *)

(** [Event.query.get_or_404(event_id)] *)
Definition get_event_or_404 (event_id : string) : handler Event.t :=
  d <- get_db ;;
  match find (fun e => Event.id e =? event_id) (events d) with
  | Some e => ret e
  | None => abort 404
  end.

(** [Participant.query.get_or_404(participant_id)] *)
Definition get_participant_or_404 (participant_id : string) : handler Participant.t :=
  d <- get_db ;;
  match find (fun p => Participant.id p =? participant_id) (participants d) with
  | Some p => ret p
  | None => abort 404
  end.

(** [Attendance.query.filter_by(event_id=event_id).count()] *)
Definition count_attendances (event_id : string) (d : db) : nat :=
  length (filter (fun a => Attendance.event_id a =? event_id) (attendances d)).

(** [Participant.query.filter_by(event_id=event_id).all()] *)
Definition participants_of (event_id : string) (d : db) : list Participant.t :=
  filter (fun p => Participant.event_id p =? event_id) (participants d).

(** [db.session.add(new_participant); db.session.commit()]: the primary key
    is checked by the database. *)
Definition add_participant (p : Participant.t) : handler unit :=
  d <- get_db ;;
  if existsb (fun q => Participant.id q =? Participant.id p) (participants d)
  then raise (IntegrityError "participant.id")
  else put_db (mkdb (events d) (participants d ++ [p]) (attendances d)).

(** The rowid an [Integer] primary key gets on insert. *)
Definition next_attendance_id (d : db) : nat :=
  S (fold_right Nat.max 0 (map Attendance.id (attendances d))).

(** [db.session.add(new_attendance); db.session.commit()]: the row gets its
    [id] and its [check_in_time] default on insert; [participant_id] is
    [unique=True]. *)
Definition add_attendance (now : datetime) (participant_id event_id : string)
  : handler unit :=
  d <- get_db ;;
  if existsb (fun a => Attendance.participant_id a =? participant_id) (attendances d)
  then raise (IntegrityError "attendance.participant_id")
  else put_db (mkdb (events d) (participants d)
                 (attendances d ++
                    [Attendance.mk (next_attendance_id d) participant_id event_id now])).

(** [db.session.delete(event); db.session.commit()]: the unit of work follows
    the [cascade="all, delete-orphan"] relationships, [Event.participants],
    [Event.attendances] and [Participant.attendance], and flushes every
    delete in the one commit. *)
Definition delete_cascade (event : Event.t) (d : db) : db :=
  let gone := participants_of (Event.id event) d in
  mkdb
    (filter (fun e => negb (Event.id e =? Event.id event)) (events d))
    (filter (fun p => negb (Participant.event_id p =? Event.id event)) (participants d))
    (filter (fun a => negb ((Attendance.event_id a =? Event.id event)
                            || existsb (fun p => Attendance.participant_id a =? Participant.id p) gone))
       (attendances d)).

Definition send_registration_email
    (recipient_email participant_name event_name : string) (qr_code_svg : svg)
  : handler unit :=
  fun w => (Value tt,
            mkworld (store w) (flashes w)
              (outbox w ++ [mkmail recipient_email participant_name event_name qr_code_svg])).

(** ** Requests *)

Inductive http_method := GET | POST.

Record request := mkrequest {
  method : http_method;
  form : dict
}.

(** [request.form[key]]: a missing key is a [BadRequestKeyError]. *)
Definition form_get (req : request) (key : string) : handler string :=
  match dict_get (form req) key with
  | Some v => ret v
  | None => abort 400
  end.

Record env := mkenv {
  utcnow : datetime;
  uuid4 : string;
  host_url : string
}.

(** ** Admin routes *)

Section CreateEvent.

(** [datetime.strptime(text, '%Y-%m-%d %H:%M')]; [None] for a [ValueError]. *)
Variable strptime : string -> option datetime.

(** [db.session.add(new_event); db.session.commit()] *)
Definition add_event (e : Event.t) : handler unit :=
  d <- get_db ;;
  if existsb (fun x => Event.id x =? Event.id e) (events d)
  then raise (IntegrityError "event.id")
  else put_db (mkdb (events d ++ [e]) (participants d) (attendances d)).

Definition create_event (env : env) (req : request) : handler response :=
  match method req with
  | POST =>
      name <- form_get req "name" ;;
      date_str <- form_get req "date" ;;
      time_str <- form_get req "time" ;;
      location <- form_get req "location" ;;
      description <- form_get req "description" ;;
      match strptime (date_str ++ " " ++ time_str) with
      | None =>
          flash "Invalid date or time format." "danger" ;;
          ret (Rendered "create_event.html" [("form_data", TForm (form req))])
      | Some event_datetime =>
          let new_event :=
            Event.mk (uuid4 env) name event_datetime location (Some description)
                     (utcnow env) in
          add_event new_event ;;
          flash "Event created successfully!" "success" ;;
          ret (Redirect (url_for admin_events_endpoint))
      end
  | GET => ret (Rendered "create_event.html" [])
  end.

End CreateEvent.

Definition event_details (event_id : string) : handler response :=
  event <- get_event_or_404 event_id ;;
  d <- get_db ;;
  let participants := participants_of (Event.id event) d in
  let attendance_count := count_attendances (Event.id event) d in
  ret (Rendered "event_details.html"
         [("event", TEvent event); ("participants", TParticipants participants);
          ("attendance_count", TCount attendance_count)]).

(** The double quote character of the f-string below. *)
Definition dquote : string := String (ascii_of_nat 34) EmptyString.

(** [f'Event "{event.name}" and all its related data have been deleted.'] *)
Definition deleted_message (event : Event.t) : string :=
  "Event " ++ dquote ++ Event.name event ++ dquote
  ++ " and all its related data have been deleted.".

Definition delete_event (event_id : string) : handler response :=
  event <- get_event_or_404 event_id ;;
  d <- get_db ;;
  put_db (delete_cascade event d) ;;
  flash (deleted_message event) "success" ;;
  ret (Redirect (url_for admin_events_endpoint)).

Definition event_qr_code (env : env) (event_id : string) : handler response :=
  event <- get_event_or_404 event_id ;;
  let registration_url :=
    url_for_external (host_url env) (register_for_event_endpoint (Event.id event)) in
  let qr_svg := generate_qr_code_svg registration_url in
  ret (Rendered "event_qr_code.html" [("event", TEvent event); ("qr_svg", TSvg qr_svg)]).

Definition live_attendance (event_id : string) : handler response :=
  event <- get_event_or_404 event_id ;;
  d <- get_db ;;
  let attendance_count := count_attendances (Event.id event) d in
  ret (Json 200 [("attendance_count", JNum attendance_count)]).

(** ** Participant routes *)

(** [all([...])] over strings *)
Definition all_truthy (l : list string) : bool := forallb truthy l.

(** The row [Participant.query.filter(Participant.event_id == event_id,
    (Participant.student_id == student_id) | (Participant.email == email))
    .first()] returns. *)
Definition find_existing_participant (event_id student_id email : string) (d : db)
  : option Participant.t :=
  find (fun p => (Participant.event_id p =? event_id)
                 && ((Participant.student_id p =? student_id)
                     || (Participant.email p =? email)))
       (participants d).

Definition register_for_event (env : env) (event_id : string) (req : request)
  : handler response :=
  event <- get_event_or_404 event_id ;;
  match method req with
  | POST =>
      name <- form_get req "name" ;;
      student_id <- form_get req "student_id" ;;
      email <- form_get req "email" ;;
      if negb (all_truthy [name; student_id; email]) then
        flash "All fields are required." "danger" ;;
        ret (Rendered "register.html" [("event", TEvent event); ("form_data", TForm (form req))])
      else
        d <- get_db ;;
        match find_existing_participant (Event.id event) student_id email d with
        | Some existing_participant =>
            flash "You are already registered for this event." "warning" ;;
            ret (Redirect (url_for (show_participant_qr_endpoint
                                      (Participant.id existing_participant))))
        | None =>
            let new_participant :=
              Participant.mk (uuid4 env) (Event.id event) name student_id email (utcnow env) in
            add_participant new_participant ;;
            let participant_qr_data := Participant.id new_participant in
            let qr_svg := generate_qr_code_svg participant_qr_data in
            send_registration_email email name (Event.name event) qr_svg ;;
            flash "Registration successful! Please save your QR code." "success" ;;
            ret (Redirect (url_for (show_participant_qr_endpoint
                                      (Participant.id new_participant))))
        end
  | GET => ret (Rendered "register.html" [("event", TEvent event)])
  end.

Definition show_participant_qr (participant_id : string) : handler response :=
  participant <- get_participant_or_404 participant_id ;;
  event <- get_event_or_404 (Participant.event_id participant) ;;
  let qr_data := Participant.id participant in
  let qr_svg := generate_qr_code_svg qr_data in
  ret (Rendered "participant_qr.html"
         [("participant", TParticipant participant); ("event", TEvent event);
          ("qr_svg", TSvg qr_svg)]).

(** ** Check-in routes *)

Definition checkin_scanner (event_id : string) : handler response :=
  event <- get_event_or_404 event_id ;;
  ret (Rendered "scan.html" [("event", TEvent event)]).

(** *** Names in scope

    [api_checkin] reads the name [event], which it never assigns; Python then
    looks it up among the module's globals.  The objects a name can be bound
    to while the handler runs: *)
Inductive pyobj :=
| PyGlobal (name : string)
| PyNone
| PyStr (s : string)
| PyDict (d : dict)
| PyEvent (e : Event.t)
| PyParticipant (p : Participant.t)
| PyAttendance (a : Attendance.t).

Definition scope := list (string * pyobj).

(** Every name bound at the top level of [app.py], imports first: the
    module binds [Event], the class, and no [event]. *)
Definition module_globals : scope :=
  map (fun n => (n, PyGlobal n))
    ["os"; "uuid"; "qrcode"; "BytesIO"; "csv"; "datetime"; "load_dotenv";
     "Flask"; "render_template"; "request"; "redirect"; "url_for"; "flash";
     "send_file"; "Response"; "jsonify"; "SQLAlchemy"; "desc";
     "app"; "db"; "Event"; "Participant"; "Attendance";
     "generate_qr_code_svg"; "send_registration_email";
     "index"; "admin_dashboard"; "admin_events"; "create_event"; "event_details";
     "delete_event"; "event_qr_code"; "download_attendees"; "live_attendance";
     "register_for_event"; "show_participant_qr"; "checkin_scanner"; "api_checkin"].

Fixpoint scope_get (s : scope) (name : string) : option pyobj :=
  match s with
  | [] => None
  | (n, o) :: s' => if n =? name then Some o else scope_get s' name
  end.

(** The functions, types and constants of the [builtins] module; its
    exception classes and the double-underscore names of a module are left
    out, none of them being a lower-case word. *)
Definition builtins : scope :=
  map (fun n => (n, PyGlobal n))
    ["abs"; "aiter"; "all"; "anext"; "any"; "ascii"; "bin"; "bool"; "breakpoint";
     "bytearray"; "bytes"; "callable"; "chr"; "classmethod"; "compile"; "complex";
     "copyright"; "credits"; "delattr"; "dict"; "dir"; "divmod"; "enumerate"; "eval";
     "exec"; "exit"; "filter"; "float"; "format"; "frozenset"; "getattr"; "globals";
     "hasattr"; "hash"; "help"; "hex"; "id"; "input"; "int"; "isinstance";
     "issubclass"; "iter"; "len"; "license"; "list"; "locals"; "map"; "max";
     "memoryview"; "min"; "next"; "object"; "oct"; "open"; "ord"; "pow"; "print";
     "property"; "quit"; "range"; "repr"; "reversed"; "round"; "set"; "setattr";
     "slice"; "sorted"; "staticmethod"; "str"; "sum"; "super"; "tuple"; "type";
     "vars"; "zip"; "None"; "True"; "False"; "Ellipsis"; "NotImplemented"].

(** Reading a name inside a function: its locals, then the module's globals,
    then the builtins. *)
Definition load_name (locals : scope) (name : string) : handler pyobj :=
  match scope_get locals name with
  | Some o => ret o
  | None =>
      match scope_get module_globals name with
      | Some o => ret o
      | None =>
          match scope_get builtins name with
          | Some o => ret o
          | None => raise (NameError name)
          end
      end
  end.

(** [obj.attr] for the string columns of a row. *)
Definition getattr_str (obj : pyobj) (attr : string) : handler string :=
  match obj with
  | PyEvent e =>
      if attr =? "id" then ret (Event.id e)
      else if attr =? "name" then ret (Event.name e)
      else if attr =? "location" then ret (Event.location e)
      else raise (AttributeError attr)
  | PyParticipant p =>
      if attr =? "id" then ret (Participant.id p)
      else if attr =? "event_id" then ret (Participant.event_id p)
      else if attr =? "name" then ret (Participant.name p)
      else if attr =? "student_id" then ret (Participant.student_id p)
      else if attr =? "email" then ret (Participant.email p)
      else raise (AttributeError attr)
  | PyAttendance a =>
      if attr =? "participant_id" then ret (Attendance.participant_id a)
      else if attr =? "event_id" then ret (Attendance.event_id a)
      else raise (AttributeError attr)
  | _ => raise (AttributeError attr)
  end.

Definition pyobj_of_opt (o : option string) : pyobj :=
  match o with
  | Some s => PyStr s
  | None => PyNone
  end.

(** A column compared with a bound parameter; no column here holds NULL. *)
Definition column_eq (column : string) (param : option string) : bool :=
  match param with
  | Some v => column =? v
  | None => false
  end.

(** *** [api_checkin]

    The body in the three stretches that each end with one database
    statement: the participant lookup (lines 263-273), the attendance lookup
    (276-281), the insert and commit (283-292). *)

Definition api_checkin_locals (data : dict) (participant : Participant.t) : scope :=
  [("data", PyDict data);
   ("participant_id", pyobj_of_opt (dict_get data "participant_id"));
   ("event_id", pyobj_of_opt (dict_get data "event_id"));
   ("participant", PyParticipant participant)].

Definition api_checkin_resolve (data : dict) : handler Participant.t :=
  let participant_id := dict_get data "participant_id" in
  let event_id := dict_get data "event_id" in
  if negb (truthy_opt participant_id) || negb (truthy_opt event_id) then
    return_ (Json 400 [("status", JStr "error");
                       ("message", JStr "Missing participant ID or event ID")])
  else
    d <- get_db ;;
    match find (fun p => column_eq (Participant.id p) participant_id
                         && column_eq (Participant.event_id p) event_id)
               (participants d) with
    | None =>
        return_ (Json 404 [("status", JStr "error");
                           ("message", JStr "Participant not found for this event")])
    | Some participant => ret participant
    end.

Definition api_checkin_existing (data : dict) (participant : Participant.t)
  : handler unit :=
  let locals := api_checkin_locals data participant in
  event <- load_name locals "event" ;;
  event_id <- getattr_str event "id" ;;
  d <- get_db ;;
  match find (fun a => (Attendance.participant_id a =? Participant.id participant)
                       && (Attendance.event_id a =? event_id))
             (attendances d) with
  | Some existing_attendance =>
      return_ (Json 200
        [("status", JStr "warning");
         ("message", JStr (Participant.name participant ++ " (ID: "
                           ++ Participant.student_id participant
                           ++ ") already checked in at "
                           ++ strftime_HM (Attendance.check_in_time existing_attendance)
                           ++ "."))])
  | None => ret tt
  end.

Definition api_checkin_commit (env : env) (data : dict) (participant : Participant.t)
  : handler response :=
  let locals := api_checkin_locals data participant ++ [("existing_attendance", PyNone)] in
  event <- load_name locals "event" ;;
  event_id <- getattr_str event "id" ;;
  add_attendance (utcnow env) (Participant.id participant) event_id ;;
  event <- load_name locals "event" ;;
  event_name <- getattr_str event "name" ;;
  ret (Json 200
    [("status", JStr "success");
     ("message", JStr ("Checked in " ++ Participant.name participant ++ " ("
                       ++ Participant.student_id participant ++ ") for "
                       ++ event_name ++ "."));
     ("participant_name", JStr (Participant.name participant));
     ("student_id", JStr (Participant.student_id participant))]).

Definition api_checkin (env : env) (data : dict) : handler response :=
  participant <- api_checkin_resolve data ;;
  api_checkin_existing data participant ;;
  api_checkin_commit env data participant.

(** *** The request body

    What [request.get_json()] returns for a body that parses: any JSON value,
    not only an object.  An object is the [dict] above. *)
#[warnings="-register-all"]
Inductive json :=
| JsonNull
| JsonBool (b : bool)
| JsonNumber (n : Z)
| JsonString (s : string)
| JsonArray (items : list json)
| JsonObject (fields : dict).

(** The field a body carries under [key], if it carries one. *)
Definition json_field (body : json) (key : string) : option string :=
  match body with
  | JsonObject fields => dict_get fields key
  | _ => None
  end.

(** [api_checkin] from the parsed body on: line 264 calls [data.get], which
    only a [dict] has; on [None], a list, a string, a number or a boolean the
    attribute lookup raises [AttributeError]. *)
Definition api_checkin_json (env : env) (body : json) : handler response :=
  match body with
  | JsonObject data => api_checkin env data
  | _ => raise (AttributeError "get")
  end.

(** ** Concurrent check-ins

    Request workers share the database; each runs [api_checkin], and the
    database serialises single statements, so the workers interleave at the
    statement boundaries. *)

Inductive worker :=
| Scanned (data : dict)
| Resolved (data : dict) (participant : Participant.t)
| Unseen (data : dict) (participant : Participant.t)
| Answered (r : response).

Definition advance {A} (o : outcome A * world) (k : A -> worker) : worker * world :=
  match o with
  | (Value a, w') => (k a, w')
  | (Return r, w') => (Answered r, w')
  | (Raise e, w') => (Answered (InternalServerError e), w')
  end.

Definition worker_step (env : env) (t : worker) (w : world) : worker * world :=
  match t with
  | Scanned data => advance (api_checkin_resolve data w) (Resolved data)
  | Resolved data p => advance (api_checkin_existing data p w) (fun _ => Unseen data p)
  | Unseen data p => advance (api_checkin_commit env data p w) Answered
  | Answered r => (Answered r, w)
  end.

Fixpoint run_worker (env : env) (n : nat) (t : worker) (w : world) : worker * world :=
  match n with
  | O => (t, w)
  | S n' => let (t', w') := worker_step env t w in run_worker env n' t' w'
  end.

(** The pool after worker [i] takes its next step; every worker serves its
    own request, with its own clock. *)
Fixpoint pool_step (i : nat) (ts : list (env * worker)) (w : world) {struct ts}
  : list (env * worker) * world :=
  match ts, i with
  | [], _ => ([], w)
  | (env, t) :: ts', O => let (t', w') := worker_step env t w in ((env, t') :: ts', w')
  | et :: ts', S i' => let (ts'', w') := pool_step i' ts' w in (et :: ts'', w')
  end.

Fixpoint run_pool (schedule : list nat) (ts : list (env * worker)) (w : world)
  : list (env * worker) * world :=
  match schedule with
  | [] => (ts, w)
  | i :: rest => let (ts', w') := pool_step i ts w in run_pool rest ts' w'
  end.

(** The states a worker passes through when its request names a participant
    the lookup finds. *)
Definition crashing (data : dict) (participant : Participant.t) (t : worker) : Prop :=
  t = Scanned data \/ t = Resolved data participant
  \/ t = Answered (InternalServerError (NameError "event")).

(** The JSON body the scanner page posts for [check_in(participant_id, event_id)]. *)
Definition checkin_request (participant_id event_id : string) : dict :=
  [("participant_id", participant_id); ("event_id", event_id)].

(** ** Schema constraints

    What the column declarations promise of the tables: primary keys, the
    [unique=True] on [Attendance.participant_id], the foreign keys, and
    identifiers that are [str(uuid.uuid4())], never empty. *)
Record consistent (d : db) : Prop := {
  event_pk : NoDup (map Event.id (events d));
  participant_pk : NoDup (map Participant.id (participants d));
  attendance_pk : NoDup (map Attendance.id (attendances d));
  attendance_unique : NoDup (map Attendance.participant_id (attendances d));
  event_ids : forall e, In e (events d) -> Event.id e <> EmptyString;
  participant_ids : forall p, In p (participants d) -> Participant.id p <> EmptyString;
  participant_fk : forall p, In p (participants d) ->
    exists e, In e (events d) /\ Event.id e = Participant.event_id p;
  attendance_participant_fk : forall a, In a (attendances d) ->
    exists p, In p (participants d) /\ Participant.id p = Attendance.participant_id a;
  attendance_event_fk : forall a, In a (attendances d) ->
    exists e, In e (events d) /\ Event.id e = Attendance.event_id a
}.

(** ** Event lists

    [index] and [admin_events] hand [Event.query.order_by(desc(Event.date)).all()]
    to their templates. *)

Fixpoint insert_by_date_desc (e : Event.t) (l : list Event.t) : list Event.t :=
  match l with
  | [] => [e]
  | x :: l' =>
      if (Event.date x <=? Event.date e)%Z then e :: l
      else x :: insert_by_date_desc e l'
  end.

(** [order_by(desc(Event.date))]; rows of equal date stay in rowid order. *)
Definition order_by_date_desc (l : list Event.t) : list Event.t :=
  fold_right insert_by_date_desc [] l.

(** [a] may be listed just before [b]: its date is not the earlier one. *)
Definition not_earlier (a b : Event.t) : Prop := (Event.date b <= Event.date a)%Z.

(** [render_template(template, events=events)] *)
Inductive listing := EventList (template : string) (events : list Event.t).

Definition listed (l : listing) : list Event.t :=
  match l with EventList _ events => events end.

Definition index (w : world) : listing :=
  let events := order_by_date_desc (events (store w)) in
  EventList "event_list.html" events.

Definition admin_events (w : world) : listing :=
  let events := order_by_date_desc (events (store w)) in
  EventList "admin_events.html" events.

Definition admin_dashboard : handler response :=
  ret (Redirect (url_for admin_events_endpoint)).

(** ** [download_attendees] *)

(** What a file's [write] is handed: a [str] or a [bytes]. *)
Inductive pydata :=
| PyText (s : string)
| PyBytes (b : string).

Inductive pyerror := TypeError (message : string).

(** [BytesIO.write(data)] on a buffer holding [buffer]: bytes only. *)
Definition bytesio_write (buffer : string) (data : pydata) : pyerror + string :=
  match data with
  | PyBytes b => inr (buffer ++ b)%string
  | PyText _ => inl (TypeError "a bytes-like object is required, not 'str'")
  end.

(** What the handler answers: an [abort], an exception nobody catches, or
    the [Response] with its mimetype, [Content-Disposition] and body. *)
Inductive download :=
| DownloadAbort (status : nat)
| DownloadError (e : pyerror)
| Attachment (mimetype : string) (disposition : string) (body : string).

(** [text.replace(" ", "_")] *)
Fixpoint replace_spaces (text : string) : string :=
  match text with
  | EmptyString => EmptyString
  | String c rest =>
      String (if Ascii.eqb c " " then "_"%char else c) (replace_spaces rest)
  end.

(** [db.session.query(Participant, Attendance).outerjoin(Attendance,
    Participant.id == Attendance.participant_id)
    .filter(Participant.event_id == event_id).all()] *)
Definition attendee_rows (event_id : string) (d : db)
  : list (Participant.t * option Attendance.t) :=
  flat_map
    (fun p =>
       match filter (fun a => Attendance.participant_id a =? Participant.id p)
                    (attendances d) with
       | [] => [(p, None)]
       | joined => map (fun a => (p, Some a)) joined
       end)
    (participants_of event_id d).

Definition attendee_headers : list string :=
  ["Participant Name"; "Student ID"; "Email"; "Registration Date"; "Check-in Time"].

Section AttendeeExport.

(** [t.strftime('%Y-%m-%d %H:%M:%S')] *)
Variable strftime_full : datetime -> string.

(** The line [csv.writer] makes of a row, a [str]. *)
Variable csv_line : list string -> string.

(** [cw.writerow(row)] with [cw = csv.writer(si)]: the line goes to [si.write]. *)
Definition writerow (buffer : string) (row : list string) : pyerror + string :=
  bytesio_write buffer (PyText (csv_line row)).

Definition attendee_row (pa : Participant.t * option Attendance.t) : list string :=
  let (participant, attendance) := pa in
  let check_in_time :=
    match attendance with
    | Some a => strftime_full (Attendance.check_in_time a)
    | None => "N/A"
    end in
  [Participant.name participant;
   Participant.student_id participant;
   Participant.email participant;
   strftime_full (Participant.registration_date participant);
   check_in_time].

(** The [for participant, attendance in participants] loop. *)
Fixpoint write_attendees (buffer : string)
    (participants : list (Participant.t * option Attendance.t)) : pyerror + string :=
  match participants with
  | [] => inr buffer
  | pa :: rest =>
      match writerow buffer (attendee_row pa) with
      | inl e => inl e
      | inr buffer' => write_attendees buffer' rest
      end
  end.

Definition download_attendees (event_id : string) (w : world) : download :=
  match find (fun e => Event.id e =? event_id) (events (store w)) with
  | None => DownloadAbort 404
  | Some event =>
      let participants := attendee_rows (Event.id event) (store w) in
      let si := EmptyString in
      match writerow si attendee_headers with
      | inl e => DownloadError e
      | inr si =>
          match write_attendees si participants with
          | inl e => DownloadError e
          | inr si =>
              let output := si in
              Attachment "text/csv"
                ("attachment; filename=" ++ replace_spaces (Event.name event)
                 ++ "_attendees.csv")%string
                output
          end
      end
  end.

End AttendeeExport.

(** ** Natural keys

    Within one event no two participants share a student id or an email. *)
Definition natural_keys_unique (d : db) : Prop :=
  forall p q,
    In p (participants d) -> In q (participants d) ->
    Participant.event_id p = Participant.event_id q ->
    Participant.student_id p = Participant.student_id q
    \/ Participant.email p = Participant.email q ->
    p = q.

(** ** Histories

    The requests that reach a handler modelled here, and the world after a
    run of them from the empty database. *)
Inductive call :=
| CreateEvent (env : env) (req : request)
| EventDetails (event_id : string)
| DeleteEvent (event_id : string)
| EventQrCode (env : env) (event_id : string)
| LiveAttendance (event_id : string)
| RegisterForEvent (env : env) (event_id : string) (req : request)
| ShowParticipantQr (participant_id : string)
| CheckinScanner (event_id : string)
| ApiCheckin (env : env) (data : dict).

Definition call_env (c : call) : option env :=
  match c with
  | CreateEvent env _ | EventQrCode env _ | RegisterForEvent env _ _ | ApiCheckin env _ =>
      Some env
  | _ => None
  end.

Section Histories.

Variable strptime : string -> option datetime.

Definition dispatch (c : call) : handler response :=
  match c with
  | CreateEvent env req => create_event strptime env req
  | EventDetails event_id => event_details event_id
  | DeleteEvent event_id => delete_event event_id
  | EventQrCode env event_id => event_qr_code env event_id
  | LiveAttendance event_id => live_attendance event_id
  | RegisterForEvent env event_id req => register_for_event env event_id req
  | ShowParticipantQr participant_id => show_participant_qr participant_id
  | CheckinScanner event_id => checkin_scanner event_id
  | ApiCheckin env data => api_checkin env data
  end.

Fixpoint replay (calls : list call) (w : world) : world :=
  match calls with
  | [] => w
  | c :: rest => replay rest (snd (serve (dispatch c) w))
  end.

End Histories.

Definition empty_world : world := mkworld (mkdb [] [] []) [] [].

(** Every identifier [uuid.uuid4()] hands out is a non-empty string. *)
Definition uuids_nonempty (calls : list call) : Prop :=
  forall c env, In c calls -> call_env c = Some env -> uuid4 env <> EmptyString.

(** A field of a request that is absent or empty. *)
Definition missing (field : option string) : Prop := field = None \/ field = Some EmptyString.

(** ** Sample data *)

Definition ev1 : Event.t :=
  Event.mk "EV1" "Orientation" 1700000000%Z "Hall A" None 1690000000%Z.
Definition ev2 : Event.t :=
  Event.mk "EV2" "Career Fair" 1700100000%Z "Hall B" (Some "Employers on campus") 1690000500%Z.
Definition alice : Participant.t :=
  Participant.mk "P-ALICE" "EV1" "Alice" "S100" "a@x.com" 1695000000%Z.
Definition bob : Participant.t :=
  Participant.mk "P-BOB" "EV2" "Bob" "S200" "b@x.com" 1695000100%Z.
Definition alice_attendance : Attendance.t :=
  Attendance.mk 1 "P-ALICE" "EV1" 1700000100%Z.

(** Alice is registered for EV1 and has not checked in. *)
Definition registered : world :=
  mkworld (mkdb [ev1; ev2] [alice; bob] []) [] [].

(** Alice already has her attendance row. *)
Definition checked_in : world :=
  mkworld (mkdb [ev1; ev2] [alice; bob] [alice_attendance]) [] [].

(** A registration form with Alice's student id and email and an empty name. *)
Definition nameless_form : request :=
  mkrequest POST [("name", EmptyString); ("student_id", "S100"); ("email", "a@x.com")].

Definition door : env := mkenv 1700000200%Z "P-NEW" "http://localhost:5000".

(** A registration form for Carol, who is not registered anywhere. *)
Definition carol_form : request :=
  mkrequest POST [("name", "Carol"); ("student_id", "S300"); ("email", "c@x.com")].

Definition carol : Participant.t :=
  Participant.mk "P-NEW" "EV1" "Carol" "S300" "c@x.com" 1700000200%Z.

(** A later request, with the next identifier. *)
Definition later : env := mkenv 1700000300%Z "P-NEXT" "http://localhost:5000".

(** The form of a new event, and a parser that knows its date. *)
Definition open_day_form : request :=
  mkrequest POST [("name", "Open Day"); ("date", "2024-01-01"); ("time", "10:00");
                  ("location", "Hall C"); ("description", "Doors open at ten")].

Definition strptime_sample (text : string) : option datetime :=
  if text =? "2024-01-01 10:00" then Some 1704103200%Z else None.

Definition office : env := mkenv 1700000400%Z "EV3" "http://localhost:5000".

(** * Properties *)

(** ** Running the monad *)

Lemma bind_run {A B} (c : handler A) (k : A -> handler B) (w : world) :
  bind c k w =
  match c w with
  | (Value a, w') => k a w'
  | (Return r, w') => (Return r, w')
  | (Raise e, w') => (Raise e, w')
  end.
Proof. reflexivity. Qed.

Lemma bind_value {A B} (c : handler A) (k : A -> handler B) w a w' :
  c w = (Value a, w') -> bind c k w = k a w'.
Proof. intros H. rewrite bind_run, H. reflexivity. Qed.

Lemma bind_return {A B} (c : handler A) (k : A -> handler B) w r w' :
  c w = (Return r, w') -> bind c k w = (Return r, w').
Proof. intros H. rewrite bind_run, H. reflexivity. Qed.

Lemma bind_raise {A B} (c : handler A) (k : A -> handler B) w e w' :
  c w = (Raise e, w') -> bind c k w = (Raise e, w').
Proof. intros H. rewrite bind_run, H. reflexivity. Qed.

(** ** Lookups by key *)

Lemma find_by_key {A} (key : A -> string) (l : list A) (x : A) :
  NoDup (map key l) -> In x l ->
  find (fun y => key y =? key x) l = Some x.
Proof.
  induction l as [|y l IH]; intros Hnd Hin; [contradiction|].
  cbn in Hnd |- *. inversion Hnd as [|? ? Hy Hl]; subst.
  destruct Hin as [->|Hin].
  - now rewrite String.eqb_refl.
  - destruct (String.eqb_spec (key y) (key x)) as [E|_].
    + exfalso. apply Hy. rewrite E. now apply in_map.
    + now apply IH.
Qed.

Lemma find_absent {A} (key : A -> string) (l : list A) (k : string) :
  (forall y, In y l -> key y <> k) ->
  find (fun y => key y =? k) l = None.
Proof.
  intros H. induction l as [|y l IH]; [reflexivity|].
  cbn. destruct (String.eqb_spec (key y) k) as [E|_].
  - exfalso. apply (H y); [now left|exact E].
  - apply IH. intros z Hz. apply H. now right.
Qed.

Lemma find_event_id w event_id e :
  find (fun e => Event.id e =? event_id) (events (store w)) = Some e ->
  In e (events (store w)) /\ Event.id e = event_id.
Proof.
  intros H. apply find_some in H. destruct H as [Hin Heq].
  split; [exact Hin|]. now apply String.eqb_eq.
Qed.

Lemma find_event_of w e :
  consistent (store w) -> In e (events (store w)) ->
  find (fun x => Event.id x =? Event.id e) (events (store w)) = Some e.
Proof. intros Hc Hin. apply find_by_key; [apply (event_pk _ Hc)|exact Hin]. Qed.

Lemma find_participant_of w p :
  consistent (store w) -> In p (participants (store w)) ->
  find (fun x => Participant.id x =? Participant.id p) (participants (store w)) = Some p.
Proof. intros Hc Hin. apply find_by_key; [apply (participant_pk _ Hc)|exact Hin]. Qed.

Lemma truthy_nonempty s : s <> EmptyString -> truthy s = true.
Proof.
  intros H. unfold truthy. destruct (String.eqb_spec s EmptyString); [contradiction|reflexivity].
Qed.

Lemma missing_falsy field : missing field -> truthy_opt field = false.
Proof. intros [->| ->]; reflexivity. Qed.

(** ** [api_checkin] *)

(** No scope of [api_checkin] binds [event]. *)
Lemma event_unbound data participant extra :
  (forall o, ~ In ("event", o) extra) ->
  forall w,
    load_name (api_checkin_locals data participant ++ extra) "event" w
    = (Raise (NameError "event"), w).
Proof.
  intros Hextra w. unfold load_name.
  assert (Hloc : scope_get (api_checkin_locals data participant ++ extra) "event" = None).
  { cbn. induction extra as [|[n o] extra IH]; [reflexivity|].
    cbn. destruct (String.eqb_spec n "event") as [->|_].
    - exfalso. apply (Hextra o). now left.
    - apply IH. intros o' Ho'. apply (Hextra o'). now right. }
  rewrite Hloc. reflexivity.
Qed.

Lemma api_checkin_existing_raises data participant w :
  api_checkin_existing data participant w = (Raise (NameError "event"), w).
Proof.
  unfold api_checkin_existing.
  apply bind_raise.
  rewrite <- (app_nil_r (api_checkin_locals data participant)).
  apply event_unbound. intros o [].
Qed.

Lemma api_checkin_commit_raises env data participant w :
  api_checkin_commit env data participant w = (Raise (NameError "event"), w).
Proof.
  unfold api_checkin_commit.
  apply bind_raise, event_unbound.
  intros o [H|[]]. discriminate H.
Qed.

(** The lookup stretch only reads. *)
Lemma api_checkin_resolve_reads data w :
  snd (api_checkin_resolve data w) = w.
Proof.
  unfold api_checkin_resolve.
  destruct (negb _ || negb _); [reflexivity|].
  rewrite bind_run. cbn.
  destruct (find _ _); reflexivity.
Qed.

(** Once the participant is found the handler dies on the unbound name,
    before it queries or writes the attendance table. *)
Lemma api_checkin_found_raises env data w participant :
  api_checkin_resolve data w = (Value participant, w) ->
  serve (api_checkin env data) w = (InternalServerError (NameError "event"), w).
Proof.
  intros H. unfold serve, api_checkin.
  rewrite (bind_value _ _ _ _ _ H).
  rewrite (bind_raise _ _ _ _ _ (api_checkin_existing_raises data participant w)).
  reflexivity.
Qed.

(** [api_checkin] never changes the world. *)
Lemma api_checkin_pure env data w :
  snd (serve (api_checkin env data) w) = w.
Proof.
  unfold serve, api_checkin. rewrite bind_run.
  pose proof (api_checkin_resolve_reads data w) as Hr.
  destruct (api_checkin_resolve data w) as [[p|r|e] w']; cbn in Hr; subst w'.
  - rewrite (bind_raise _ _ _ _ _ (api_checkin_existing_raises data p w)). reflexivity.
  - reflexivity.
  - reflexivity.
Qed.

Lemma api_checkin_resolve_none data w participant_id event_id :
  dict_get data "participant_id" = Some participant_id ->
  dict_get data "event_id" = Some event_id ->
  participant_id <> EmptyString -> event_id <> EmptyString ->
  (forall q, In q (participants (store w)) ->
             Participant.id q = participant_id -> Participant.event_id q <> event_id) ->
  api_checkin_resolve data w =
  (Return (Json 404 [("status", JStr "error");
                     ("message", JStr "Participant not found for this event")]), w).
Proof.
  intros Hp He Hpne Hene Hnone. unfold api_checkin_resolve.
  rewrite Hp, He. cbn [truthy_opt].
  rewrite (truthy_nonempty _ Hpne), (truthy_nonempty _ Hene). cbn [negb orb].
  rewrite bind_run. cbn [get_db].
  destruct (find _ _) as [q|] eqn:Hfind; [|reflexivity].
  exfalso. apply find_some in Hfind. destruct Hfind as [Hin Hq].
  apply andb_true_iff in Hq. destruct Hq as [Hid Hev]. cbn in Hid, Hev.
  apply String.eqb_eq in Hid, Hev. exact (Hnone q Hin Hid Hev).
Qed.

(** C6. A participant's identifier scanned with another event's identifier.
    For every participant [p] of a consistent database: the check-in request
    carrying [p]'s id and the id of any event other than [p]'s own is answered
    404, "Participant not found for this event", and nothing is written; and
    so is every request carrying [p]'s id and any non-empty event identifier
    other than [p]'s own, whether or not an event has it. *)
Theorem checkin_wrong_event_not_found env w p :
  consistent (store w) ->
  In p (participants (store w)) ->
  (forall e,
     In e (events (store w)) ->
     Event.id e <> Participant.event_id p ->
     serve (api_checkin env (checkin_request (Participant.id p) (Event.id e))) w =
     (Json 404 [("status", JStr "error");
                ("message", JStr "Participant not found for this event")], w))
  /\
  (forall data event_id,
     dict_get data "participant_id" = Some (Participant.id p) ->
     dict_get data "event_id" = Some event_id ->
     event_id <> EmptyString ->
     event_id <> Participant.event_id p ->
     serve (api_checkin env data) w =
     (Json 404 [("status", JStr "error");
                ("message", JStr "Participant not found for this event")], w)).
Proof.
  intros Hc Hin.
  assert (Hany : forall data event_id,
     dict_get data "participant_id" = Some (Participant.id p) ->
     dict_get data "event_id" = Some event_id ->
     event_id <> EmptyString ->
     event_id <> Participant.event_id p ->
     serve (api_checkin env data) w =
     (Json 404 [("status", JStr "error");
                ("message", JStr "Participant not found for this event")], w)).
  { intros data event_id Hp He Hene Hneq.
    unfold serve, api_checkin.
    erewrite bind_return; [reflexivity|].
    apply (api_checkin_resolve_none data w (Participant.id p) event_id Hp He);
      [now apply (participant_ids _ Hc)|exact Hene|].
    intros q Hq Hid Hev.
    pose proof (find_by_key Participant.id _ p (participant_pk _ Hc) Hin) as Hfp.
    pose proof (find_by_key Participant.id _ q (participant_pk _ Hc) Hq) as Hfq.
    rewrite Hid in Hfq. rewrite Hfp in Hfq. injection Hfq as <-.
    now apply Hneq. }
  split; [|exact Hany].
  intros e He Hneq.
  apply (Hany _ (Event.id e)); [reflexivity|reflexivity| |exact Hneq].
  now apply (event_ids _ Hc).
Qed.

(** A JSON object whose [participant_id] or [event_id] is absent or empty is
    answered 400, "Missing participant ID or event ID"; the answer is the same
    whatever the database holds, and the world is left as it was. *)
Lemma checkin_missing_field_rejected env data w :
  missing (dict_get data "participant_id") \/ missing (dict_get data "event_id") ->
  serve (api_checkin env data) w =
  (Json 400 [("status", JStr "error");
             ("message", JStr "Missing participant ID or event ID")], w).
Proof.
  intros H. unfold serve, api_checkin.
  erewrite bind_return; [reflexivity|].
  unfold api_checkin_resolve.
  destruct H as [H|H]; rewrite (missing_falsy _ H); cbn [negb orb];
    [|rewrite orb_true_r]; reflexivity.
Qed.

(** C7. A check-in request in which [participant_id] or [event_id] is absent
    or empty never reads or writes the tables, but it is answered 400 only
    when its body is a JSON object.  A body that is [null], a list, a string,
    a number or a boolean carries neither field, and there [data.get] raises
    [AttributeError]: the answer is a server error, not the client error. *)
Theorem checkin_missing_field_answers env body w :
  missing (json_field body "participant_id") \/ missing (json_field body "event_id") ->
  serve (api_checkin_json env body) w =
  (match body with
   | JsonObject _ =>
       Json 400 [("status", JStr "error");
                 ("message", JStr "Missing participant ID or event ID")]
   | _ => InternalServerError (AttributeError "get")
   end, w).
Proof.
  intros H. destruct body as [|b|n|s|items|data]; try reflexivity.
  cbn [api_checkin_json json_field] in *.
  now apply checkin_missing_field_rejected.
Qed.

Lemma checkin_missing_field_answers_witness :
  json_field JsonNull "participant_id" = None
  /\ serve (api_checkin_json door JsonNull) registered
     = (InternalServerError (AttributeError "get"), registered)
  /\ serve (api_checkin_json door (JsonArray [])) registered
     = (InternalServerError (AttributeError "get"), registered)
  /\ serve (api_checkin_json door (JsonObject [("event_id", "EV1")])) registered
     = (Json 400 [("status", JStr "error");
                  ("message", JStr "Missing participant ID or event ID")], registered).
Proof.
  split; [reflexivity|]. split; [|split].
  - apply (checkin_missing_field_answers door JsonNull registered).
    left. left. reflexivity.
  - apply (checkin_missing_field_answers door (JsonArray []) registered).
    right. left. reflexivity.
  - apply (checkin_missing_field_answers door (JsonObject [("event_id", "EV1")]) registered).
    left. left. reflexivity.
Defined.

(** C10. [live_attendance] aborts with 404 for an identifier that names no
    event, and for an existing event answers the number of attendance rows
    whose [event_id] is that identifier, counted in the database as it is at
    the call. *)
Theorem live_attendance_counts w event_id :
  ((forall e, In e (events (store w)) -> Event.id e <> event_id) ->
   serve (live_attendance event_id) w = (Abort 404, w))
  /\
  ((exists e, In e (events (store w)) /\ Event.id e = event_id) ->
   serve (live_attendance event_id) w =
   (Json 200
      [("attendance_count",
        JNum (length (filter (fun a => Attendance.event_id a =? event_id)
                        (attendances (store w)))))], w)).
Proof.
  split.
  - intros Hnone. unfold serve, live_attendance.
    erewrite bind_return; [reflexivity|].
    unfold get_event_or_404. rewrite bind_run. cbn [get_db].
    now rewrite (find_absent Event.id _ event_id Hnone).
  - intros (e & Hin & Hid). unfold serve, live_attendance.
    destruct (find (fun e => Event.id e =? event_id) (events (store w))) as [e'|] eqn:Hf.
    + destruct (find_event_id _ _ _ Hf) as [_ Hid'].
      rewrite (bind_value _ _ w e' w).
      * rewrite bind_run. cbn [get_db]. unfold count_attendances. rewrite Hid'. reflexivity.
      * unfold get_event_or_404. rewrite bind_run. cbn [get_db]. now rewrite Hf.
    + exfalso. apply (find_none _ _ Hf) in Hin.
      rewrite <- Hid, String.eqb_refl in Hin. discriminate.
Qed.

(** A worker alone, given its three turns, answers what the handler answers. *)
Lemma run_worker_api_checkin env data w :
  run_worker env 3 (Scanned data) w =
  (Answered (fst (serve (api_checkin env data) w)), snd (serve (api_checkin env data) w)).
Proof.
  unfold serve, api_checkin. cbn [run_worker worker_step].
  rewrite bind_run.
  destruct (api_checkin_resolve data w) as [[p|r|e] w1]; cbn [advance worker_step];
    [|reflexivity|reflexivity].
  rewrite bind_run.
  destruct (api_checkin_existing data p w1) as [[[]|r|e] w2]; cbn [advance worker_step];
    [|reflexivity|reflexivity].
  destruct (api_checkin_commit env data p w2) as [[r|r|e] w3]; reflexivity.
Qed.

Lemma worker_step_crashing env data p t w :
  api_checkin_resolve data w = (Value p, w) ->
  crashing data p t ->
  crashing data p (fst (worker_step env t w)) /\ snd (worker_step env t w) = w.
Proof.
  intros Hres [->|[->| ->]]; cbn [worker_step].
  - rewrite Hres. cbn. split; [right; left; reflexivity|reflexivity].
  - rewrite api_checkin_existing_raises. cbn. split; [right; right; reflexivity|reflexivity].
  - cbn. split; [right; right; reflexivity|reflexivity].
Qed.

Lemma pool_step_crashing data p w :
  api_checkin_resolve data w = (Value p, w) ->
  forall i ts,
    Forall (fun et => crashing data p (snd et)) ts ->
    Forall (fun et => crashing data p (snd et)) (fst (pool_step i ts w))
    /\ snd (pool_step i ts w) = w.
Proof.
  intros Hres i ts. revert i.
  induction ts as [|[env t] ts IH]; intros i Hall; [split; [constructor|reflexivity]|].
  inversion Hall as [|? ? Ht Hts]; subst. cbn in Ht.
  destruct i as [|i]; cbn [pool_step].
  - destruct (worker_step_crashing env data p t w Hres Ht) as [Ht' Hw].
    destruct (worker_step env t w) as [t' w']. cbn in Ht', Hw |- *. subst w'.
    split; [constructor; assumption|reflexivity].
  - destruct (IH i Hts) as [Hts' Hw].
    destruct (pool_step i ts w) as [ts' w']. cbn in Hts', Hw |- *. subst w'.
    split; [constructor; assumption|reflexivity].
Qed.

Lemma run_pool_crashing data p w :
  api_checkin_resolve data w = (Value p, w) ->
  forall schedule ts,
    Forall (fun et => crashing data p (snd et)) ts ->
    Forall (fun et => crashing data p (snd et)) (fst (run_pool schedule ts w))
    /\ snd (run_pool schedule ts w) = w.
Proof.
  intros Hres schedule.
  induction schedule as [|i rest IH]; intros ts Hall; [split; [exact Hall|reflexivity]|].
  cbn [run_pool].
  destruct (pool_step_crashing data p w Hres i ts Hall) as [Hts' Hw].
  destruct (pool_step i ts w) as [ts' w']. cbn in Hts', Hw. subst w'.
  now apply IH.
Qed.

(** ** The sample worlds *)

Lemma registered_consistent : consistent (store registered).
Proof.
  constructor; cbn.
  - repeat constructor; cbn; intuition discriminate.
  - repeat constructor; cbn; intuition discriminate.
  - constructor.
  - constructor.
  - intros e [<-|[<-|[]]]; discriminate.
  - intros p [<-|[<-|[]]]; discriminate.
  - intros p [<-|[<-|[]]]; [exists ev1|exists ev2]; cbn; auto.
  - intros a [].
  - intros a [].
Qed.

Lemma checked_in_consistent : consistent (store checked_in).
Proof.
  constructor; cbn.
  - repeat constructor; cbn; intuition discriminate.
  - repeat constructor; cbn; intuition discriminate.
  - repeat constructor; cbn; intuition.
  - repeat constructor; cbn; intuition.
  - intros e [<-|[<-|[]]]; discriminate.
  - intros p [<-|[<-|[]]]; discriminate.
  - intros p [<-|[<-|[]]]; [exists ev1|exists ev2]; cbn; auto.
  - intros a [<-|[]]. exists alice. cbn; auto.
  - intros a [<-|[]]. exists ev1. cbn; auto.
Qed.

(** The lookup finds a participant scanned with its own event. *)
Lemma api_checkin_resolve_found w p :
  consistent (store w) ->
  In p (participants (store w)) ->
  api_checkin_resolve (checkin_request (Participant.id p) (Participant.event_id p)) w
  = (Value p, w).
Proof.
  intros Hc Hin. unfold api_checkin_resolve. cbn [checkin_request dict_get].
  cbn [String.eqb Ascii.eqb Bool.eqb truthy_opt].
  destruct (participant_fk _ Hc p Hin) as (e & He & Heid).
  rewrite (truthy_nonempty _ (participant_ids _ Hc p Hin)).
  rewrite <- Heid, (truthy_nonempty _ (event_ids _ Hc e He)), Heid.
  cbn [negb orb]. rewrite bind_run. cbn [get_db].
  destruct (find _ _) as [q|] eqn:Hf.
  - apply find_some in Hf. destruct Hf as [Hq Hkey].
    apply andb_true_iff in Hkey. destruct Hkey as [Hid _]. cbn in Hid.
    apply String.eqb_eq in Hid.
    pose proof (find_participant_of _ _ Hc Hin) as Hfp.
    pose proof (find_participant_of _ _ Hc Hq) as Hfq.
    rewrite Hid, Hfp in Hfq. now injection Hfq as <-.
  - exfalso. apply (find_none _ _ Hf) in Hin. cbn in Hin.
    rewrite !String.eqb_refl in Hin. discriminate.
Qed.

(** C1. A participant of a consistent database with no attendance row, scanned
    with its own event: the lookup finds the participant, and the handler then
    raises [NameError] on the name [event].  The answer is a server error, not
    the success message, and no attendance row is written: the world is left
    as it was. *)
Theorem first_checkin_raises env w p :
  consistent (store w) ->
  In p (participants (store w)) ->
  (forall a, In a (attendances (store w)) ->
             Attendance.participant_id a <> Participant.id p) ->
  serve (api_checkin env (checkin_request (Participant.id p) (Participant.event_id p))) w
  = (InternalServerError (NameError "event"), w).
Proof.
  intros Hc Hin _.
  apply (api_checkin_found_raises env _ w p), api_checkin_resolve_found; assumption.
Qed.

Lemma first_checkin_raises_witness :
  attendances (store registered) = []
  /\ serve (api_checkin door (checkin_request "P-ALICE" "EV1")) registered
     = (InternalServerError (NameError "event"), registered).
Proof.
  split; [reflexivity|].
  apply (first_checkin_raises door registered alice registered_consistent).
  - left. reflexivity.
  - intros a [].
Defined.

(** C2. A participant that already has its attendance row, scanned again with
    its own event: the answer is the same server error, not the "already
    checked in" warning with the first check-in time; the handler raises
    before it reads the attendance table, and the row stays as it was. *)
Theorem repeated_checkin_raises env w p a :
  consistent (store w) ->
  In p (participants (store w)) ->
  In a (attendances (store w)) ->
  Attendance.participant_id a = Participant.id p ->
  serve (api_checkin env (checkin_request (Participant.id p) (Participant.event_id p))) w
  = (InternalServerError (NameError "event"), w).
Proof.
  intros Hc Hin _ _.
  apply (api_checkin_found_raises env _ w p), api_checkin_resolve_found; assumption.
Qed.

Lemma repeated_checkin_raises_witness :
  attendances (store checked_in) = [alice_attendance]
  /\ serve (api_checkin door (checkin_request "P-ALICE" "EV1")) checked_in
     = (InternalServerError (NameError "event"), checked_in).
Proof.
  split; [reflexivity|].
  apply (repeated_checkin_raises door checked_in alice alice_attendance
           checked_in_consistent).
  - left. reflexivity.
  - left. reflexivity.
  - reflexivity.
Defined.

(** C3. Any number of workers serve check-in requests for one participant of
    a consistent database at once, each with its own clock, under any
    schedule: the world stays as it was, so no attendance row is written, and
    whichever workers have answered have answered with the [NameError]; none
    reports success and none reports a duplicate. *)
Theorem concurrent_checkins_all_raise w p (envs : list env) (schedule : list nat) :
  consistent (store w) ->
  In p (participants (store w)) ->
  let data := checkin_request (Participant.id p) (Participant.event_id p) in
  let pool := map (fun env => (env, Scanned data)) envs in
  snd (run_pool schedule pool w) = w
  /\ (forall env r, In (env, Answered r) (fst (run_pool schedule pool w)) ->
                    r = InternalServerError (NameError "event")).
Proof.
  intros Hc Hin data pool.
  pose proof (api_checkin_resolve_found w p Hc Hin) as Hres. fold data in Hres.
  assert (Hpool : Forall (fun et => crashing data p (snd et)) pool).
  { apply Forall_forall. intros [env t] Ht. apply in_map_iff in Ht.
    destruct Ht as (env' & Heq & _). injection Heq as _ <-. now left. }
  destruct (run_pool_crashing data p w Hres schedule pool Hpool) as [Hall Hw].
  split; [exact Hw|].
  intros env r Hr.
  rewrite Forall_forall in Hall. specialize (Hall _ Hr). cbn in Hall.
  destruct Hall as [H|[H|H]]; try discriminate H. now injection H.
Qed.

(** Two workers scan Alice at once and each runs to its end: both answer with
    the error, and the attendance table is still empty. *)
Lemma concurrent_checkins_all_raise_witness :
  run_pool [0; 1; 1; 0]
    [(door, Scanned (checkin_request "P-ALICE" "EV1"));
     (door, Scanned (checkin_request "P-ALICE" "EV1"))] registered
  = ([(door, Answered (InternalServerError (NameError "event")));
      (door, Answered (InternalServerError (NameError "event")))], registered)
  /\ snd (run_pool [0; 1; 1; 0]
            (map (fun env => (env, Scanned (checkin_request "P-ALICE" "EV1"))) [door; door])
            registered) = registered
  /\ forall env r,
       In (env, Answered r)
          (fst (run_pool [0; 1; 1; 0]
                  (map (fun env => (env, Scanned (checkin_request "P-ALICE" "EV1")))
                       [door; door])
                  registered)) ->
       r = InternalServerError (NameError "event").
Proof.
  split; [reflexivity|].
  apply (concurrent_checkins_all_raise registered alice [door; door] [0; 1; 1; 0]
           registered_consistent).
  left. reflexivity.
Defined.

(** ** [register_for_event] *)

Lemma get_event_or_404_found w event_id e :
  find (fun e => Event.id e =? event_id) (events (store w)) = Some e ->
  get_event_or_404 event_id w = (Value e, w).
Proof.
  intros H. unfold get_event_or_404. rewrite bind_run. cbn [get_db]. now rewrite H.
Qed.

Lemma get_event_or_404_absent w event_id :
  find (fun e => Event.id e =? event_id) (events (store w)) = None ->
  get_event_or_404 event_id w = (Return (Abort 404), w).
Proof.
  intros H. unfold get_event_or_404. rewrite bind_run. cbn [get_db]. now rewrite H.
Qed.

Lemma find_event_exists w event_id :
  (exists e, In e (events (store w)) /\ Event.id e = event_id) ->
  exists e, find (fun e => Event.id e =? event_id) (events (store w)) = Some e.
Proof.
  intros (e & Hin & Hid).
  destruct (find _ _) as [e'|] eqn:Hf; [now exists e'|].
  exfalso. apply (find_none _ _ Hf) in Hin.
  rewrite <- Hid, String.eqb_refl in Hin. discriminate.
Qed.

(** Walks [register_for_event] down to each of its exits. *)
Ltac register_paths w req :=
  unfold serve, register_for_event, get_event_or_404, form_get, add_participant;
  rewrite !bind_run; cbn [get_db];
  destruct (find _ (events (store w))) as [e|] eqn:Hevent;
    cbn [abort return_ ret Monad_handler];
  [ destruct (method req) eqn:Hmethod;
    [ | rewrite !bind_run;
        destruct (dict_get (form req) "name") as [f_name|] eqn:Hname;
          cbn [abort return_ ret Monad_handler];
        [ rewrite !bind_run;
          destruct (dict_get (form req) "student_id") as [f_student_id|] eqn:Hstudent;
            cbn [abort return_ ret Monad_handler];
          [ rewrite !bind_run;
            destruct (dict_get (form req) "email") as [f_email|] eqn:Hemail;
              cbn [abort return_ ret Monad_handler];
            [ destruct (all_truthy [f_name; f_student_id; f_email]) eqn:Hvalid; cbn [negb];
              rewrite !bind_run; cbn [get_db flash ret Monad_handler];
              [ destruct (find_existing_participant (Event.id e) f_student_id f_email (store w))
                  as [existing|] eqn:Hexisting;
                rewrite !bind_run; cbn [get_db flash ret Monad_handler];
                [ | destruct (existsb _ (participants (store w))) eqn:Hclash;
                    cbn -[append] ]
              | ]
            | ]
          | ]
        | ] ]
  | ].

Lemma all_truthy_three name student_id email :
  name <> EmptyString -> student_id <> EmptyString -> email <> EmptyString ->
  all_truthy [name; student_id; email] = true.
Proof.
  intros H1 H2 H3. unfold all_truthy. cbn.
  now rewrite !truthy_nonempty by assumption.
Qed.

Lemma find_existing_participant_some event_id student_id email d p :
  In p (participants d) ->
  Participant.event_id p = event_id ->
  Participant.student_id p = student_id \/ Participant.email p = email ->
  exists existing,
    find_existing_participant event_id student_id email d = Some existing.
Proof.
  intros Hin Hev Hkey. unfold find_existing_participant.
  destruct (find _ _) as [q|] eqn:Hf; [now exists q|].
  exfalso. apply (find_none _ _ Hf) in Hin.
  rewrite Hev, String.eqb_refl in Hin. cbn in Hin.
  destruct Hkey as [<-|<-]; rewrite String.eqb_refl in Hin;
    [|rewrite orb_true_r in Hin]; discriminate.
Qed.

Lemma find_existing_participant_matches event_id student_id email d existing :
  find_existing_participant event_id student_id email d = Some existing ->
  In existing (participants d)
  /\ Participant.event_id existing = event_id
  /\ (Participant.student_id existing = student_id \/ Participant.email existing = email).
Proof.
  intros H. apply find_some in H. destruct H as [Hin H].
  apply andb_true_iff in H. destruct H as [Hev Hkey].
  apply String.eqb_eq in Hev. apply orb_true_iff in Hkey.
  repeat split; try assumption.
  destruct Hkey as [H|H]; apply String.eqb_eq in H; [now left|now right].
Qed.

(** C4, as amended.  A registration for an existing event whose three fields
    are all non-empty and whose student id or email is already that of a
    participant of the event: the handler redirects to the QR page of an
    existing participant of the event that matches on one of the two keys,
    flashes the warning "You are already registered for this event.", and
    leaves the database, so also the event's participants, as it was. *)
Theorem register_existing_redirects env w event_id req name student_id email p :
  (exists e, In e (events (store w)) /\ Event.id e = event_id) ->
  method req = POST ->
  dict_get (form req) "name" = Some name ->
  dict_get (form req) "student_id" = Some student_id ->
  dict_get (form req) "email" = Some email ->
  name <> EmptyString -> student_id <> EmptyString -> email <> EmptyString ->
  In p (participants (store w)) ->
  Participant.event_id p = event_id ->
  Participant.student_id p = student_id \/ Participant.email p = email ->
  exists existing,
    In existing (participants (store w))
    /\ Participant.event_id existing = event_id
    /\ (Participant.student_id existing = student_id
        \/ Participant.email existing = email)
    /\ serve (register_for_event env event_id req) w =
       (Redirect (url_for (show_participant_qr_endpoint (Participant.id existing))),
        mkworld (store w)
          (flashes w ++ [("You are already registered for this event.", "warning")])
          (outbox w)).
Proof.
  intros Hev Hpost Hn Hs Hm Hn0 Hs0 Hm0 Hin Hpe Hkey.
  destruct (find_event_exists _ _ Hev) as [e0 He0].
  destruct (find_event_id _ _ _ He0) as [_ Hid0].
  destruct (find_existing_participant_some event_id student_id email (store w) p Hin Hpe Hkey)
    as [ex Hex].
  exists ex.
  destruct (find_existing_participant_matches _ _ _ _ _ Hex) as (H1 & H2 & H3).
  repeat split; try assumption.
  register_paths w req; try congruence.
  injection Hn as ->. injection Hs as ->. injection Hm as ->.
  rewrite (all_truthy_three _ _ _ Hn0 Hs0 Hm0) in Hvalid. discriminate.
Qed.

(** C4, as stated, fails when a field is empty.  The form carries Alice's
    student id and email, both registered for EV1, and an empty name: the
    handler answers with the form and "All fields are required.", before it
    looks for an existing participant; it neither redirects to Alice's QR
    page nor flashes the already-registered warning. *)
Lemma register_existing_empty_name :
  In alice (participants (store registered))
  /\ Participant.event_id alice = "EV1"
  /\ dict_get (form nameless_form) "student_id" = Some (Participant.student_id alice)
  /\ dict_get (form nameless_form) "email" = Some (Participant.email alice)
  /\ serve (register_for_event door "EV1" nameless_form) registered =
     (Rendered "register.html"
        [("event", TEvent ev1); ("form_data", TForm (form nameless_form))],
      mkworld (store registered) [("All fields are required.", "danger")] [])
  /\ ~ (exists existing,
         serve (register_for_event door "EV1" nameless_form) registered =
         (Redirect (url_for (show_participant_qr_endpoint (Participant.id existing))),
          mkworld (store registered)
            (flashes registered
               ++ [("You are already registered for this event.", "warning")])
            (outbox registered))).
Proof.
  split; [left; reflexivity|].
  repeat (split; [reflexivity|]).
  intros [existing H]. discriminate H.
Qed.

(** The mail log after a registration request: as before, or one mail longer,
    and then for the participant the request has just committed. *)
Lemma register_for_event_outbox env w event_id req :
  let w' := snd (serve (register_for_event env event_id req) w) in
  outbox w' = outbox w
  \/ exists e name student_id email,
       find (fun e => Event.id e =? event_id) (events (store w)) = Some e
       /\ dict_get (form req) "student_id" = Some student_id
       /\ dict_get (form req) "email" = Some email
       /\ find_existing_participant (Event.id e) student_id email (store w) = None
       /\ participants (store w') =
          participants (store w)
            ++ [Participant.mk (uuid4 env) (Event.id e) name student_id email (utcnow env)]
       /\ outbox w' =
          outbox w ++ [mkmail email name (Event.name e) (generate_qr_code_svg (uuid4 env))].
Proof.
  register_paths w req; try (left; reflexivity).
  right. exists e, f_name, f_student_id, f_email. repeat split; assumption.
Qed.

(** C9. A registration request sends a mail only when it has committed a new
    participant: the mail log either stays as it was, or grows by the one
    mail for the participant the request has just appended to the table.
    When the form's student id or email is that of a participant already
    registered for the event, the mail log stays as it was. *)
Theorem duplicate_registration_sends_nothing env w event_id req :
  let w' := snd (serve (register_for_event env event_id req) w) in
  (outbox w' = outbox w
   \/ exists e name student_id email,
        In e (events (store w)) /\ Event.id e = event_id
        /\ participants (store w') =
           participants (store w)
             ++ [Participant.mk (uuid4 env) event_id name student_id email (utcnow env)]
        /\ outbox w' =
           outbox w ++ [mkmail email name (Event.name e) (generate_qr_code_svg (uuid4 env))])
  /\ ((exists p, In p (participants (store w))
                 /\ Participant.event_id p = event_id
                 /\ (dict_get (form req) "student_id" = Some (Participant.student_id p)
                     \/ dict_get (form req) "email" = Some (Participant.email p))) ->
      outbox w' = outbox w).
Proof.
  intros w'. subst w'.
  destruct (register_for_event_outbox env w event_id req)
    as [Hsame|(e & name & student_id & email & He & Hs & Hm & Hnone & Hps & Hout)].
  - split; [now left|]. intros _. exact Hsame.
  - destruct (find_event_id _ _ _ He) as [Hin Hid].
    split.
    + right. exists e, name, student_id, email. subst event_id.
      repeat split; assumption.
    + intros (p & Hp & Hpe & Hkey). exfalso.
      assert (Hmatch : Participant.student_id p = student_id \/ Participant.email p = email).
      { destruct Hkey as [H|H]; [left|right]; congruence. }
      rewrite <- Hid in Hpe.
      destruct (find_existing_participant_some _ _ _ _ p Hp Hpe Hmatch) as [ex Hex].
      congruence.
Qed.

(** ** QR payloads *)

(** C8. In a consistent database: the page [event_qr_code] renders for an
    event carries the QR code of exactly [<host_url>/event/<event id>/register];
    the page [show_participant_qr] renders for a participant carries the QR
    code of exactly the participant's id; and the QR code mailed by a
    registration is that of exactly the new participant's id. *)
Theorem qr_payloads env w :
  consistent (store w) ->
  (forall e, In e (events (store w)) ->
     serve (event_qr_code env (Event.id e)) w =
     (Rendered "event_qr_code.html"
        [("event", TEvent e);
         ("qr_svg", TSvg (SvgPathImage
                            (host_url env ++ "/event/" ++ Event.id e ++ "/register")))], w))
  /\ (forall p, In p (participants (store w)) ->
        exists e, In e (events (store w)) /\ Event.id e = Participant.event_id p
        /\ serve (show_participant_qr (Participant.id p)) w =
           (Rendered "participant_qr.html"
              [("participant", TParticipant p); ("event", TEvent e);
               ("qr_svg", TSvg (SvgPathImage (Participant.id p)))], w))
  /\ (forall event_id req m,
        let w' := snd (serve (register_for_event env event_id req) w) in
        outbox w' = outbox w ++ [m] ->
        exists new_participant,
          participants (store w') = participants (store w) ++ [new_participant]
          /\ qr_payload (qr_code_svg m) = Participant.id new_participant).
Proof.
  intros Hc. repeat split.
  - intros e Hin. unfold serve, event_qr_code.
    rewrite (bind_value _ _ _ _ _ (get_event_or_404_found _ _ _ (find_event_of _ _ Hc Hin))).
    reflexivity.
  - intros p Hin.
    destruct (participant_fk _ Hc p Hin) as (e & He & Hid).
    exists e. repeat split; try assumption.
    unfold serve, show_participant_qr.
    erewrite bind_value.
    2:{ unfold get_participant_or_404. rewrite bind_run. cbn [get_db].
        rewrite (find_participant_of _ _ Hc Hin). reflexivity. }
    erewrite bind_value.
    2:{ apply get_event_or_404_found. rewrite <- Hid. now apply find_event_of. }
    reflexivity.
  - intros event_id req m w' Hm. subst w'.
    destruct (register_for_event_outbox env w event_id req)
      as [Hsame|(e & name & student_id & email & _ & _ & _ & _ & Hps & Hout)].
    + exfalso. rewrite Hsame in Hm.
      apply (f_equal (@length mail)) in Hm. rewrite length_app in Hm. cbn in Hm. lia.
    + rewrite Hout in Hm. apply app_inj_tail in Hm. destruct Hm as [_ <-].
      eexists. split; [exact Hps|reflexivity].
Qed.

(** ** [delete_event] *)

Lemma delete_event_found w event_id e :
  find (fun e => Event.id e =? event_id) (events (store w)) = Some e ->
  serve (delete_event event_id) w =
  (Redirect "/admin/events",
   mkworld (delete_cascade e (store w))
     (flashes w ++ [(deleted_message e, "success")])
     (outbox w)).
Proof.
  intros H. unfold serve, delete_event.
  rewrite (bind_value _ _ _ _ _ (get_event_or_404_found _ _ _ H)).
  reflexivity.
Qed.

Lemma delete_event_absent w event_id :
  find (fun e => Event.id e =? event_id) (events (store w)) = None ->
  serve (delete_event event_id) w = (Abort 404, w).
Proof.
  intros H. unfold serve, delete_event.
  rewrite (bind_return _ _ _ _ _ (get_event_or_404_absent _ _ H)).
  reflexivity.
Qed.

Lemma negb_eqb_true a b : negb (a =? b) = true <-> a <> b.
Proof.
  destruct (String.eqb_spec a b); cbn; split; intros; congruence.
Qed.

Lemma delete_cascade_events e d x :
  In x (events (delete_cascade e d)) <-> In x (events d) /\ Event.id x <> Event.id e.
Proof. cbn. rewrite filter_In, negb_eqb_true. reflexivity. Qed.

Lemma delete_cascade_participants e d q :
  In q (participants (delete_cascade e d))
  <-> In q (participants d) /\ Participant.event_id q <> Event.id e.
Proof. cbn. rewrite filter_In, negb_eqb_true. reflexivity. Qed.

Lemma delete_cascade_attendances e d a :
  In a (attendances (delete_cascade e d))
  <-> In a (attendances d)
      /\ Attendance.event_id a <> Event.id e
      /\ (forall q, In q (participants d) -> Participant.event_id q = Event.id e ->
                    Attendance.participant_id a <> Participant.id q).
Proof.
  cbn. rewrite filter_In, negb_true_iff, orb_false_iff.
  split; intros (Hin & H1 & H2); (split; [exact Hin|split]).
  - now apply String.eqb_neq.
  - intros q Hq Hqe Heq.
    assert (Hex : existsb (fun p => Attendance.participant_id a =? Participant.id p)
                    (participants_of (Event.id e) d) = true).
    { apply existsb_exists. exists q. split.
      - unfold participants_of. apply filter_In. split; [exact Hq|]. now apply String.eqb_eq.
      - now apply String.eqb_eq. }
    congruence.
  - now apply String.eqb_neq.
  - destruct (existsb _ _) eqn:Hex; [|reflexivity]. exfalso.
    apply existsb_exists in Hex. destruct Hex as (q & Hq & Heq).
    unfold participants_of in Hq. apply filter_In in Hq. destruct Hq as [Hq Hqe].
    apply String.eqb_eq in Hqe, Heq. exact (H2 q Hq Hqe Heq).
Qed.

(** C5. Deleting an event of a consistent database.  If no event has the
    identifier, the answer is 404 and the world is untouched.  Otherwise the
    one commit leaves exactly the events with another id, exactly the
    participants of other events, and of the attendance rows those that
    reference neither the event nor one of its participants; afterwards the
    event's page is a 404, and a check-in request for any former participant
    of the event is answered 404, with the deleted event's identifier and with
    any other non-empty one. *)
Theorem delete_event_cascades w event_id :
  consistent (store w) ->
  ((forall e, In e (events (store w)) -> Event.id e <> event_id) ->
   serve (delete_event event_id) w = (Abort 404, w))
  /\
  ((exists e, In e (events (store w)) /\ Event.id e = event_id) ->
   let w' := snd (serve (delete_event event_id) w) in
   fst (serve (delete_event event_id) w) = Redirect "/admin/events"
   /\ (forall x, In x (events (store w'))
                 <-> In x (events (store w)) /\ Event.id x <> event_id)
   /\ (forall q, In q (participants (store w'))
                 <-> In q (participants (store w)) /\ Participant.event_id q <> event_id)
   /\ (forall a, In a (attendances (store w'))
                 <-> In a (attendances (store w))
                     /\ Attendance.event_id a <> event_id
                     /\ (forall q, In q (participants (store w)) ->
                                   Participant.event_id q = event_id ->
                                   Attendance.participant_id a <> Participant.id q))
   /\ serve (event_details event_id) w' = (Abort 404, w')
   /\ (forall env p,
         In p (participants (store w)) ->
         Participant.event_id p = event_id ->
         serve (api_checkin env (checkin_request (Participant.id p) event_id)) w' =
         (Json 404 [("status", JStr "error");
                    ("message", JStr "Participant not found for this event")], w'))
   /\ (forall env data p scanned_event_id,
         In p (participants (store w)) ->
         Participant.event_id p = event_id ->
         dict_get data "participant_id" = Some (Participant.id p) ->
         dict_get data "event_id" = Some scanned_event_id ->
         scanned_event_id <> EmptyString ->
         serve (api_checkin env data) w' =
         (Json 404 [("status", JStr "error");
                    ("message", JStr "Participant not found for this event")], w'))).
Proof.
  intros Hc. split.
  - intros Hnone. apply delete_event_absent. now apply find_absent.
  - intros Hex. destruct (find_event_exists _ _ Hex) as [e He].
    destruct (find_event_id _ _ _ He) as [Hin Hid].
    rewrite (delete_event_found _ _ _ He). cbn [fst snd store].
    rewrite <- Hid.
    split; [reflexivity|].
    split; [intros x; apply delete_cascade_events|].
    split; [intros q; apply delete_cascade_participants|].
    split; [intros a; apply delete_cascade_attendances|].
    split.
    { unfold serve, event_details. erewrite bind_return; [reflexivity|].
      apply get_event_or_404_absent. cbn [store].
      apply find_absent. intros y Hy. now apply delete_cascade_events in Hy. }
    assert (Hscan : forall env data p scanned_event_id,
      In p (participants (store w)) ->
      Participant.event_id p = Event.id e ->
      dict_get data "participant_id" = Some (Participant.id p) ->
      dict_get data "event_id" = Some scanned_event_id ->
      scanned_event_id <> EmptyString ->
      serve (api_checkin env data)
        (mkworld (delete_cascade e (store w))
           (flashes w ++ [(deleted_message e, "success")]) (outbox w)) =
      (Json 404 [("status", JStr "error");
                 ("message", JStr "Participant not found for this event")],
       mkworld (delete_cascade e (store w))
         (flashes w ++ [(deleted_message e, "success")]) (outbox w))).
    { intros env data p scanned Hp Hpe Hdp Hde Hne.
      unfold serve, api_checkin. erewrite bind_return; [reflexivity|].
      apply (api_checkin_resolve_none data _ (Participant.id p) scanned Hdp Hde);
        [now apply (participant_ids _ Hc)|exact Hne|].
      cbn [store]. intros q Hq Hqid _.
      apply delete_cascade_participants in Hq. destruct Hq as [Hq Hqe].
      pose proof (find_participant_of _ _ Hc Hp) as Hfp.
      pose proof (find_participant_of _ _ Hc Hq) as Hfq.
      rewrite Hqid, Hfp in Hfq. injection Hfq as <-. contradiction. }
    split; [|exact Hscan].
    intros env p Hp Hpe.
    apply (Hscan env _ p (Event.id e) Hp Hpe); [reflexivity|reflexivity|].
    now apply (event_ids _ Hc).
Qed.

Lemma register_existing_redirects_witness :
  exists existing,
    In existing (participants (store registered))
    /\ Participant.event_id existing = "EV1"
    /\ (Participant.student_id existing = "S100" \/ Participant.email existing = "new@x.com")
    /\ serve (register_for_event door "EV1"
                (mkrequest POST [("name", "Alice B."); ("student_id", "S100");
                                 ("email", "new@x.com")])) registered =
       (Redirect (url_for (show_participant_qr_endpoint (Participant.id existing))),
        mkworld (store registered)
          (flashes registered ++ [("You are already registered for this event.", "warning")])
          (outbox registered)).
Proof.
  apply (register_existing_redirects door registered "EV1"
           (mkrequest POST [("name", "Alice B."); ("student_id", "S100");
                            ("email", "new@x.com")])
           "Alice B." "S100" "new@x.com" alice).
  - exists ev1. split; [left|]; reflexivity.
  - reflexivity.
  - reflexivity.
  - reflexivity.
  - reflexivity.
  - discriminate.
  - discriminate.
  - discriminate.
  - left. reflexivity.
  - reflexivity.
  - left. reflexivity.
Defined.

Lemma delete_event_cascades_witness :
  serve (delete_event "EV9") checked_in = (Abort 404, checked_in)
  /\ (let w' := snd (serve (delete_event "EV1") checked_in) in
      store w' = mkdb [ev2] [bob] []
      /\ serve (event_details "EV1") w' = (Abort 404, w')
      /\ serve (api_checkin door (checkin_request "P-ALICE" "EV1")) w' =
         (Json 404 [("status", JStr "error");
                    ("message", JStr "Participant not found for this event")], w')).
Proof.
  split.
  - apply (proj1 (delete_event_cascades checked_in "EV9" checked_in_consistent)).
    intros e [<-|[<-|[]]]; discriminate.
  - assert (Hex : exists e, In e (events (store checked_in)) /\ Event.id e = "EV1").
    { exists ev1. split; [left|]; reflexivity. }
    destruct (proj2 (delete_event_cascades checked_in "EV1" checked_in_consistent) Hex)
      as (_ & _ & _ & _ & Hpage & Hscan & _).
    split; [reflexivity|]. split; [exact Hpage|].
    apply (Hscan door alice).
    + left. reflexivity.
    + reflexivity.
Defined.

Lemma checkin_wrong_event_not_found_witness :
  Participant.event_id alice = "EV1"
  /\ serve (api_checkin door (checkin_request "P-ALICE" "EV2")) registered =
     (Json 404 [("status", JStr "error");
                ("message", JStr "Participant not found for this event")], registered)
  /\ serve (api_checkin door (checkin_request "P-ALICE" "EV7")) registered =
     (Json 404 [("status", JStr "error");
                ("message", JStr "Participant not found for this event")], registered).
Proof.
  assert (Hin : In alice (participants (store registered))) by (left; reflexivity).
  destruct (checkin_wrong_event_not_found door registered alice registered_consistent Hin)
    as [Hother Hany].
  split; [reflexivity|]. split.
  - apply (Hother ev2).
    + right. left. reflexivity.
    + discriminate.
  - apply (Hany (checkin_request "P-ALICE" "EV7") "EV7").
    + reflexivity.
    + reflexivity.
    + discriminate.
    + discriminate.
Defined.

Lemma qr_payloads_witness :
  serve (event_qr_code door "EV1") registered =
  (Rendered "event_qr_code.html"
     [("event", TEvent ev1);
      ("qr_svg", TSvg (SvgPathImage "http://localhost:5000/event/EV1/register"))],
   registered)
  /\ exists e,
       serve (show_participant_qr "P-ALICE") registered =
       (Rendered "participant_qr.html"
          [("participant", TParticipant alice); ("event", TEvent e);
           ("qr_svg", TSvg (SvgPathImage "P-ALICE"))], registered).
Proof.
  destruct (qr_payloads door registered registered_consistent) as (Hevent & Hpart & _).
  split.
  - apply (Hevent ev1). left. reflexivity.
  - destruct (Hpart alice) as (e & _ & _ & H); [left; reflexivity|].
    exists e. exact H.
Defined.

Lemma duplicate_registration_sends_nothing_witness :
  outbox (snd (serve (register_for_event door "EV1"
                        (mkrequest POST [("name", "Alice"); ("student_id", "S100");
                                         ("email", "a@x.com")])) registered))
  = outbox registered.
Proof.
  apply (proj2 (duplicate_registration_sends_nothing door registered "EV1"
                  (mkrequest POST [("name", "Alice"); ("student_id", "S100");
                                   ("email", "a@x.com")]))).
  exists alice. split; [left; reflexivity|]. split; [reflexivity|]. left. reflexivity.
Defined.

Lemma live_attendance_counts_witness :
  serve (live_attendance "EV9") checked_in = (Abort 404, checked_in)
  /\ serve (live_attendance "EV1") checked_in =
     (Json 200 [("attendance_count", JNum 1)], checked_in).
Proof.
  split.
  - apply (proj1 (live_attendance_counts checked_in "EV9")).
    intros e [<-|[<-|[]]]; discriminate.
  - apply (proj2 (live_attendance_counts checked_in "EV1")).
    exists ev1. split; [left|]; reflexivity.
Defined.

(** ** The handlers keep the schema constraints *)

Lemma NoDup_map_filter {A B} (f : A -> B) (g : A -> bool) (l : list A) :
  NoDup (map f l) -> NoDup (map f (filter g l)).
Proof.
  induction l as [|x l IH]; intros Hnd; [constructor|].
  cbn in Hnd. inversion Hnd as [|? ? Hx Hl]; subst.
  cbn. destruct (g x); [|now apply IH].
  cbn. constructor; [|now apply IH].
  intros Hin. apply Hx. apply in_map_iff in Hin. destruct Hin as (y & Hy & Hin).
  apply filter_In in Hin. apply in_map_iff. exists y. tauto.
Qed.

Lemma NoDup_map_snoc {A B} (f : A -> B) (l : list A) (x : A) :
  NoDup (map f l) -> ~ In (f x) (map f l) -> NoDup (map f (l ++ [x])).
Proof.
  intros Hnd Hx. rewrite map_app. cbn.
  apply NoDup_app.
  - exact Hnd.
  - repeat constructor. intros [].
  - intros b Hb [<-|[]]. contradiction.
Qed.

Lemma existsb_key_false {A} (key : A -> string) (l : list A) (k : string) :
  existsb (fun y => key y =? k) l = false -> ~ In k (map key l).
Proof.
  intros H Hin. apply in_map_iff in Hin. destruct Hin as (y & Hy & Hin).
  assert (Ht : existsb (fun y => key y =? k) l = true).
  { apply existsb_exists. exists y. split; [exact Hin|]. now apply String.eqb_eq. }
  congruence.
Qed.

Lemma delete_cascade_consistent e d :
  consistent d -> consistent (delete_cascade e d).
Proof.
  intros Hc. constructor.
  - apply NoDup_map_filter, (event_pk _ Hc).
  - apply NoDup_map_filter, (participant_pk _ Hc).
  - apply NoDup_map_filter, (attendance_pk _ Hc).
  - apply NoDup_map_filter, (attendance_unique _ Hc).
  - intros x Hx. apply delete_cascade_events in Hx. apply (event_ids _ Hc), Hx.
  - intros q Hq. apply delete_cascade_participants in Hq. apply (participant_ids _ Hc), Hq.
  - intros q Hq. apply delete_cascade_participants in Hq. destruct Hq as [Hq Hqe].
    destruct (participant_fk _ Hc q Hq) as (x & Hx & Hid).
    exists x. split; [|exact Hid]. apply delete_cascade_events. split; [exact Hx|congruence].
  - intros a Ha. apply delete_cascade_attendances in Ha. destruct Ha as (Ha & _ & Hpart).
    destruct (attendance_participant_fk _ Hc a Ha) as (q & Hq & Hid).
    exists q. split; [|exact Hid]. apply delete_cascade_participants. split; [exact Hq|].
    intros Hqe. exact (Hpart q Hq Hqe (eq_sym Hid)).
  - intros a Ha. apply delete_cascade_attendances in Ha. destruct Ha as (Ha & Hae & _).
    destruct (attendance_event_fk _ Hc a Ha) as (x & Hx & Hid).
    exists x. split; [|exact Hid]. apply delete_cascade_events. split; [exact Hx|congruence].
Qed.

Lemma add_participant_consistent d p e :
  consistent d ->
  existsb (fun q => Participant.id q =? Participant.id p) (participants d) = false ->
  Participant.id p <> EmptyString ->
  In e (events d) -> Event.id e = Participant.event_id p ->
  consistent (mkdb (events d) (participants d ++ [p]) (attendances d)).
Proof.
  intros Hc Hfresh Hid He Hfk. constructor; cbn.
  - apply (event_pk _ Hc).
  - apply NoDup_map_snoc; [apply (participant_pk _ Hc)|].
    now apply existsb_key_false.
  - apply (attendance_pk _ Hc).
  - apply (attendance_unique _ Hc).
  - apply (event_ids _ Hc).
  - intros q Hq. apply in_app_iff in Hq. destruct Hq as [Hq|[<-|[]]];
      [now apply (participant_ids _ Hc)|exact Hid].
  - intros q Hq. apply in_app_iff in Hq. destruct Hq as [Hq|[<-|[]]];
      [now apply (participant_fk _ Hc)|now exists e].
  - intros a Ha. destruct (attendance_participant_fk _ Hc a Ha) as (q & Hq & Hqid).
    exists q. split; [apply in_app_iff; now left|exact Hqid].
  - apply (attendance_event_fk _ Hc).
Qed.

Lemma add_event_consistent d e :
  consistent d ->
  existsb (fun x => Event.id x =? Event.id e) (events d) = false ->
  Event.id e <> EmptyString ->
  consistent (mkdb (events d ++ [e]) (participants d) (attendances d)).
Proof.
  intros Hc Hfresh Hid. constructor; cbn.
  - apply NoDup_map_snoc; [apply (event_pk _ Hc)|].
    now apply existsb_key_false.
  - apply (participant_pk _ Hc).
  - apply (attendance_pk _ Hc).
  - apply (attendance_unique _ Hc).
  - intros x Hx. apply in_app_iff in Hx. destruct Hx as [Hx|[<-|[]]];
      [now apply (event_ids _ Hc)|exact Hid].
  - apply (participant_ids _ Hc).
  - intros q Hq. destruct (participant_fk _ Hc q Hq) as (x & Hx & Hxid).
    exists x. split; [apply in_app_iff; now left|exact Hxid].
  - apply (attendance_participant_fk _ Hc).
  - intros a Ha. destruct (attendance_event_fk _ Hc a Ha) as (x & Hx & Hxid).
    exists x. split; [apply in_app_iff; now left|exact Hxid].
Qed.

Lemma next_attendance_id_fresh d :
  ~ In (next_attendance_id d) (map Attendance.id (attendances d)).
Proof.
  unfold next_attendance_id.
  assert (Hmax : forall l n, In n l -> n <= fold_right Nat.max 0 l).
  { induction l as [|m l IH]; intros n [].
    - subst. cbn. lia.
    - cbn. specialize (IH n H). lia. }
  intros Hin. apply Hmax in Hin. lia.
Qed.

(** The insert of [add_attendance], were it reached: the [unique=True] on
    [participant_id] keeps one row per participant. *)
Lemma add_attendance_consistent now participant_id event_id w p e :
  consistent (store w) ->
  In p (participants (store w)) -> Participant.id p = participant_id ->
  In e (events (store w)) -> Event.id e = event_id ->
  consistent (store (snd (add_attendance now participant_id event_id w))).
Proof.
  intros Hc Hp Hpid He Heid. unfold add_attendance. rewrite bind_run. cbn [get_db].
  destruct (existsb _ _) eqn:Hdup; [exact Hc|].
  cbn. constructor; cbn.
  - apply (event_pk _ Hc).
  - apply (participant_pk _ Hc).
  - apply NoDup_map_snoc; [apply (attendance_pk _ Hc)|]. cbn.
    apply next_attendance_id_fresh.
  - apply NoDup_map_snoc; [apply (attendance_unique _ Hc)|]. cbn.
    now apply existsb_key_false.
  - apply (event_ids _ Hc).
  - apply (participant_ids _ Hc).
  - apply (participant_fk _ Hc).
  - intros a Ha. apply in_app_iff in Ha. destruct Ha as [Ha|[<-|[]]];
      [now apply (attendance_participant_fk _ Hc)|now exists p].
  - intros a Ha. apply in_app_iff in Ha. destruct Ha as [Ha|[<-|[]]];
      [now apply (attendance_event_fk _ Hc)|now exists e].
Qed.

Lemma register_for_event_consistent env w event_id req :
  consistent (store w) -> uuid4 env <> EmptyString ->
  consistent (store (snd (serve (register_for_event env event_id req) w))).
Proof.
  intros Hc Hid.
  register_paths w req; try exact Hc.
  destruct (find_event_id _ _ _ Hevent) as [Hin _].
  now apply (add_participant_consistent (store w) _ e).
Qed.

Lemma delete_event_consistent w event_id :
  consistent (store w) ->
  consistent (store (snd (serve (delete_event event_id) w))).
Proof.
  intros Hc.
  destruct (find (fun e => Event.id e =? event_id) (events (store w))) as [e|] eqn:He.
  - rewrite (delete_event_found _ _ _ He). now apply delete_cascade_consistent.
  - now rewrite (delete_event_absent _ _ He).
Qed.

Lemma create_event_consistent strptime env req w :
  consistent (store w) -> uuid4 env <> EmptyString ->
  consistent (store (snd (serve (create_event strptime env req) w))).
Proof.
  intros Hc Hid. unfold serve, create_event, form_get, add_event.
  destruct (method req); [exact Hc|].
  repeat (rewrite bind_run;
          match goal with
          | |- context [dict_get (form req) ?k] =>
              destruct (dict_get (form req) k); cbn [abort return_ ret Monad_handler];
              [|exact Hc]
          end).
  destruct (strptime _) as [t|].
  - rewrite !bind_run. cbn [get_db].
    destruct (existsb _ _) eqn:Hfresh; cbn -[append]; [exact Hc|].
    now apply add_event_consistent.
  - rewrite !bind_run. cbn. exact Hc.
Qed.

(** A handler that only reads leaves the world as it found it. *)
Lemma event_details_reads event_id w : snd (serve (event_details event_id) w) = w.
Proof.
  unfold serve, event_details, get_event_or_404. rewrite !bind_run. cbn [get_db].
  destruct (find _ _); reflexivity.
Qed.

Lemma event_qr_code_reads env event_id w : snd (serve (event_qr_code env event_id) w) = w.
Proof.
  unfold serve, event_qr_code, get_event_or_404. rewrite !bind_run. cbn [get_db].
  destruct (find _ _); reflexivity.
Qed.

Lemma live_attendance_reads event_id w : snd (serve (live_attendance event_id) w) = w.
Proof.
  unfold serve, live_attendance, get_event_or_404. rewrite !bind_run. cbn [get_db].
  destruct (find _ _); reflexivity.
Qed.

Lemma checkin_scanner_reads event_id w : snd (serve (checkin_scanner event_id) w) = w.
Proof.
  unfold serve, checkin_scanner, get_event_or_404. rewrite !bind_run. cbn [get_db].
  destruct (find _ _); reflexivity.
Qed.

Lemma show_participant_qr_reads participant_id w :
  snd (serve (show_participant_qr participant_id) w) = w.
Proof.
  unfold serve, show_participant_qr, get_participant_or_404, get_event_or_404.
  rewrite !bind_run. cbn [get_db].
  destruct (find _ (participants (store w))); cbn [abort return_ ret Monad_handler];
    [|reflexivity].
  rewrite !bind_run. cbn [get_db].
  destruct (find _ (events (store w))); reflexivity.
Qed.

Lemma dispatch_consistent strptime c w :
  consistent (store w) ->
  (forall env, call_env c = Some env -> uuid4 env <> EmptyString) ->
  consistent (store (snd (serve (dispatch strptime c) w))).
Proof.
  intros Hc Hid. destruct c; cbn [dispatch].
  - apply create_event_consistent; [exact Hc|]. now apply Hid.
  - now rewrite event_details_reads.
  - now apply delete_event_consistent.
  - now rewrite event_qr_code_reads.
  - now rewrite live_attendance_reads.
  - apply register_for_event_consistent; [exact Hc|]. now apply Hid.
  - now rewrite show_participant_qr_reads.
  - now rewrite checkin_scanner_reads.
  - now rewrite api_checkin_pure.
Qed.

Lemma empty_world_consistent : consistent (store empty_world).
Proof.
  constructor; cbn; try constructor; intros ? [].
Qed.

(** X8. Requests served one after the other keep the schema constraints:
    from a consistent database, and so from the empty one, any run of requests
    whose identifiers are non-empty leaves primary keys unique, at most one
    attendance row per participant, every identifier non-empty and every
    foreign key pointing at a row that exists. *)
Lemma replay_consistent strptime calls :
  uuids_nonempty calls ->
  forall w, consistent (store w) -> consistent (store (replay strptime calls w)).
Proof.
  induction calls as [|c rest IH]; intros Hids w Hc; [exact Hc|].
  cbn [replay]. apply IH.
  - intros c' env Hin. apply Hids. now right.
  - apply dispatch_consistent; [exact Hc|].
    intros env Henv. apply (Hids c env); [now left|exact Henv].
Qed.

(** No history ever writes an attendance row: the only insert is the one
    [api_checkin] never reaches. *)
Lemma replay_no_attendance strptime calls w :
  attendances (store w) = [] ->
  attendances (store (replay strptime calls w)) = [].
Proof.
  revert w. induction calls as [|c rest IH]; intros w Hw; [exact Hw|].
  cbn [replay]. apply IH.
  destruct c; cbn [dispatch].
  - unfold serve, create_event, form_get, add_event.
    destruct (method req); [exact Hw|].
    repeat (rewrite bind_run;
            match goal with
            | |- context [dict_get (form req) ?k] =>
                destruct (dict_get (form req) k); cbn [abort return_ ret Monad_handler];
                [|exact Hw]
            end).
    destruct (strptime _) as [t|].
    + rewrite !bind_run. cbn [get_db].
      destruct (existsb _ _); cbn -[append]; exact Hw.
    + rewrite !bind_run. cbn. exact Hw.
  - now rewrite event_details_reads.
  - destruct (find (fun e => Event.id e =? event_id) (events (store w))) as [e|] eqn:He.
    + rewrite (delete_event_found _ _ _ He). cbn. now rewrite Hw.
    + now rewrite (delete_event_absent _ _ He).
  - now rewrite event_qr_code_reads.
  - now rewrite live_attendance_reads.
  - register_paths w req; exact Hw.
  - now rewrite show_participant_qr_reads.
  - now rewrite checkin_scanner_reads.
  - now rewrite api_checkin_pure.
Qed.

(** * Further properties *)

(** ** Registration *)

Lemma no_match_find_existing event_id student_id email d :
  (forall p, In p (participants d) -> Participant.event_id p = event_id ->
             Participant.student_id p <> student_id /\ Participant.email p <> email) ->
  find_existing_participant event_id student_id email d = None.
Proof.
  intros H. destruct (find_existing_participant _ _ _ _) as [q|] eqn:Hq; [|reflexivity].
  exfalso. destruct (find_existing_participant_matches _ _ _ _ _ Hq) as (Hin & Hev & Hkey).
  destruct (H q Hin Hev) as [Hs Hm]. destruct Hkey; contradiction.
Qed.

Lemma fresh_existsb {A} (key : A -> string) (l : list A) (k : string) :
  (forall y, In y l -> key y <> k) ->
  existsb (fun y => key y =? k) l = false.
Proof.
  intros H. destruct (existsb _ _) eqn:Hex; [|reflexivity].
  exfalso. apply existsb_exists in Hex. destruct Hex as (y & Hy & Heq).
  apply String.eqb_eq in Heq. exact (H y Hy Heq).
Qed.

(** The path of [register_for_event] that commits. *)
Lemma register_for_event_creates env w event_id req ev name student_id email :
  find (fun e => Event.id e =? event_id) (events (store w)) = Some ev ->
  method req = POST ->
  dict_get (form req) "name" = Some name ->
  dict_get (form req) "student_id" = Some student_id ->
  dict_get (form req) "email" = Some email ->
  all_truthy [name; student_id; email] = true ->
  find_existing_participant (Event.id ev) student_id email (store w) = None ->
  existsb (fun q => Participant.id q =? uuid4 env) (participants (store w)) = false ->
  serve (register_for_event env event_id req) w =
  (Redirect (url_for (show_participant_qr_endpoint (uuid4 env))),
   mkworld
     (mkdb (events (store w))
        (participants (store w)
           ++ [Participant.mk (uuid4 env) (Event.id ev) name student_id email (utcnow env)])
        (attendances (store w)))
     (flashes w ++ [("Registration successful! Please save your QR code.", "success")])
     (outbox w ++ [mkmail email name (Event.name ev) (generate_qr_code_svg (uuid4 env))])).
Proof.
  intros He Hpost Hn Hs Hm Hvalid0 Hnone Hfresh.
  register_paths w req; congruence.
Qed.

(** X1. A registration that names an existing event, carries three non-empty
    fields, matches no participant of the event on student id or email, and
    draws an identifier no participant has: the handler appends exactly the
    new participant (the identifier, the event, the three fields, the time of
    the request), mails the QR code of the identifier to the address given,
    flashes the success message and redirects to the new participant's QR
    page; events and attendance rows stay as they were. *)
Theorem register_new_participant env w event_id req ev name student_id email :
  consistent (store w) ->
  In ev (events (store w)) -> Event.id ev = event_id ->
  method req = POST ->
  dict_get (form req) "name" = Some name ->
  dict_get (form req) "student_id" = Some student_id ->
  dict_get (form req) "email" = Some email ->
  name <> EmptyString -> student_id <> EmptyString -> email <> EmptyString ->
  (forall p, In p (participants (store w)) -> Participant.event_id p = event_id ->
             Participant.student_id p <> student_id /\ Participant.email p <> email) ->
  (forall p, In p (participants (store w)) -> Participant.id p <> uuid4 env) ->
  serve (register_for_event env event_id req) w =
  (Redirect ("/participant/" ++ uuid4 env ++ "/qr")%string,
   mkworld
     (mkdb (events (store w))
        (participants (store w)
           ++ [Participant.mk (uuid4 env) event_id name student_id email (utcnow env)])
        (attendances (store w)))
     (flashes w ++ [("Registration successful! Please save your QR code.", "success")])
     (outbox w ++ [mkmail email name (Event.name ev) (SvgPathImage (uuid4 env))])).
Proof.
  intros Hc He Hid Hpost Hn Hs Hm Hn0 Hs0 Hm0 Hnone Hfresh. subst event_id.
  apply (register_for_event_creates env w (Event.id ev) req ev name student_id email);
    try assumption.
  - now apply find_event_of.
  - now apply all_truthy_three.
  - now apply no_match_find_existing.
  - now apply (fresh_existsb Participant.id).
Qed.

Lemma register_new_participant_witness :
  serve (register_for_event door "EV1" carol_form) registered =
  (Redirect "/participant/P-NEW/qr",
   mkworld (mkdb [ev1; ev2] [alice; bob; carol] [])
     [("Registration successful! Please save your QR code.", "success")]
     [mkmail "c@x.com" "Carol" "Orientation" (SvgPathImage "P-NEW")]).
Proof.
  apply (register_new_participant door registered "EV1" carol_form ev1
           "Carol" "S300" "c@x.com" registered_consistent).
  - left. reflexivity.
  - reflexivity.
  - reflexivity.
  - reflexivity.
  - reflexivity.
  - reflexivity.
  - discriminate.
  - discriminate.
  - discriminate.
  - intros p [<-|[<-|[]]]; cbn; intros; split; discriminate.
  - intros p [<-|[<-|[]]]; discriminate.
Defined.

(** X2. A registration for an existing event whose form carries the three
    fields with one of them empty: the handler shows the form again with what
    was typed, flashes "All fields are required.", and stores and mails
    nothing, whether or not the other fields match a participant. *)
Theorem register_empty_field_rejected env w event_id req ev name student_id email :
  consistent (store w) ->
  In ev (events (store w)) -> Event.id ev = event_id ->
  method req = POST ->
  dict_get (form req) "name" = Some name ->
  dict_get (form req) "student_id" = Some student_id ->
  dict_get (form req) "email" = Some email ->
  name = EmptyString \/ student_id = EmptyString \/ email = EmptyString ->
  serve (register_for_event env event_id req) w =
  (Rendered "register.html" [("event", TEvent ev); ("form_data", TForm (form req))],
   mkworld (store w) (flashes w ++ [("All fields are required.", "danger")]) (outbox w)).
Proof.
  intros Hc He Hid Hpost Hn Hs Hm Hempty. subst event_id.
  pose proof (find_event_of _ _ Hc He) as Hfind.
  assert (Hinvalid : all_truthy [name; student_id; email] = false).
  { unfold all_truthy. cbn.
    destruct Hempty as [->|[->| ->]]; cbn;
      rewrite ?andb_false_r; reflexivity. }
  register_paths w req; congruence.
Qed.

Lemma register_empty_field_rejected_witness :
  serve (register_for_event door "EV1" nameless_form) registered =
  (Rendered "register.html" [("event", TEvent ev1); ("form_data", TForm (form nameless_form))],
   mkworld (store registered) [("All fields are required.", "danger")] []).
Proof.
  apply (register_empty_field_rejected door registered "EV1" nameless_form ev1
           EmptyString "S100" "a@x.com" registered_consistent).
  - left. reflexivity.
  - reflexivity.
  - reflexivity.
  - reflexivity.
  - reflexivity.
  - reflexivity.
  - left. reflexivity.
Defined.

(** The path of [register_for_event] that finds the natural key taken. *)
Lemma register_for_event_existing env w event_id req ev name student_id email found :
  find (fun e => Event.id e =? event_id) (events (store w)) = Some ev ->
  method req = POST ->
  dict_get (form req) "name" = Some name ->
  dict_get (form req) "student_id" = Some student_id ->
  dict_get (form req) "email" = Some email ->
  all_truthy [name; student_id; email] = true ->
  find_existing_participant (Event.id ev) student_id email (store w) = Some found ->
  serve (register_for_event env event_id req) w =
  (Redirect (url_for (show_participant_qr_endpoint (Participant.id found))),
   mkworld (store w)
     (flashes w ++ [("You are already registered for this event.", "warning")])
     (outbox w)).
Proof.
  intros He Hpost Hn Hs Hm Hvalid0 Hex.
  register_paths w req; congruence.
Qed.

(** What a registration request can do to the tables. *)
Lemma register_for_event_store env w event_id req :
  let w' := snd (serve (register_for_event env event_id req) w) in
  store w' = store w
  \/ exists ev name student_id email,
       find (fun e => Event.id e =? event_id) (events (store w)) = Some ev
       /\ find_existing_participant (Event.id ev) student_id email (store w) = None
       /\ store w' =
          mkdb (events (store w))
            (participants (store w)
               ++ [Participant.mk (uuid4 env) (Event.id ev) name student_id email
                     (utcnow env)])
            (attendances (store w)).
Proof.
  register_paths w req; try (left; reflexivity).
  right. exists e, f_name, f_student_id, f_email. repeat split; assumption.
Qed.

(** X3. A route given an identifier that names no event answers 404 and
    leaves the world untouched: the event page, the event's QR page, the
    scanner page, and the registration form, whatever the method and the form
    sent. *)
Theorem unknown_event_not_found env w event_id req :
  (forall e, In e (events (store w)) -> Event.id e <> event_id) ->
  serve (event_details event_id) w = (Abort 404, w)
  /\ serve (event_qr_code env event_id) w = (Abort 404, w)
  /\ serve (checkin_scanner event_id) w = (Abort 404, w)
  /\ serve (register_for_event env event_id req) w = (Abort 404, w).
Proof.
  intros Hnone.
  pose proof (get_event_or_404_absent w event_id (find_absent Event.id _ _ Hnone)) as H404.
  repeat split.
  - unfold serve, event_details. now rewrite (bind_return _ _ _ _ _ H404).
  - unfold serve, event_qr_code. now rewrite (bind_return _ _ _ _ _ H404).
  - unfold serve, checkin_scanner. now rewrite (bind_return _ _ _ _ _ H404).
  - unfold serve, register_for_event. now rewrite (bind_return _ _ _ _ _ H404).
Qed.

Lemma unknown_event_not_found_witness :
  serve (event_details "EV9") registered = (Abort 404, registered)
  /\ serve (event_qr_code door "EV9") registered = (Abort 404, registered)
  /\ serve (checkin_scanner "EV9") registered = (Abort 404, registered)
  /\ serve (register_for_event door "EV9" carol_form) registered = (Abort 404, registered).
Proof.
  apply (unknown_event_not_found door registered "EV9" carol_form).
  intros e [<-|[<-|[]]]; discriminate.
Defined.

(** X4. A registration posted for an existing event without one of the keys
    [name], [student_id], [email] in its form is answered 400, before any
    validation or lookup, and leaves the world untouched. *)
Theorem register_missing_key_rejected env w event_id req :
  (exists e, In e (events (store w)) /\ Event.id e = event_id) ->
  method req = POST ->
  dict_get (form req) "name" = None
  \/ dict_get (form req) "student_id" = None
  \/ dict_get (form req) "email" = None ->
  serve (register_for_event env event_id req) w = (Abort 400, w).
Proof.
  intros Hex Hpost Hmiss.
  destruct (find_event_exists _ _ Hex) as [ev Hev].
  register_paths w req; try congruence.
  all: destruct Hmiss as [H|[H|H]]; congruence.
Qed.

Lemma register_missing_key_rejected_witness :
  serve (register_for_event door "EV1"
           (mkrequest POST [("name", "Carol"); ("email", "c@x.com")])) registered
  = (Abort 400, registered).
Proof.
  apply (register_missing_key_rejected door registered "EV1"
           (mkrequest POST [("name", "Carol"); ("email", "c@x.com")])).
  - exists ev1. split; [left|]; reflexivity.
  - reflexivity.
  - right. left. reflexivity.
Defined.

Lemma find_snoc {A} (f : A -> bool) (l : list A) (x : A) :
  find f l = None -> find f (l ++ [x]) = if f x then Some x else None.
Proof.
  induction l as [|y l IH]; intros H; [reflexivity|].
  cbn in H |- *. destruct (f y); [discriminate|]. now apply IH.
Qed.

(** X5. The same valid form posted twice for an event, the first time
    matching no participant: the first request commits the new participant,
    the second finds that very participant, redirects to its QR page with the
    warning, and adds neither a row nor a mail, whatever identifier and clock
    the second request draws. *)
Theorem register_twice env env' w event_id req ev name student_id email :
  consistent (store w) ->
  In ev (events (store w)) -> Event.id ev = event_id ->
  method req = POST ->
  dict_get (form req) "name" = Some name ->
  dict_get (form req) "student_id" = Some student_id ->
  dict_get (form req) "email" = Some email ->
  name <> EmptyString -> student_id <> EmptyString -> email <> EmptyString ->
  (forall p, In p (participants (store w)) -> Participant.event_id p = event_id ->
             Participant.student_id p <> student_id /\ Participant.email p <> email) ->
  (forall p, In p (participants (store w)) -> Participant.id p <> uuid4 env) ->
  let w1 := snd (serve (register_for_event env event_id req) w) in
  participants (store w1) =
    participants (store w)
      ++ [Participant.mk (uuid4 env) event_id name student_id email (utcnow env)]
  /\ serve (register_for_event env' event_id req) w1 =
     (Redirect ("/participant/" ++ uuid4 env ++ "/qr")%string,
      mkworld (store w1)
        (flashes w1 ++ [("You are already registered for this event.", "warning")])
        (outbox w1)).
Proof.
  intros Hc He Hid Hpost Hn Hs Hm Hn0 Hs0 Hm0 Hnone Hfresh w1. subst event_id.
  pose proof (find_event_of _ _ Hc He) as Hfind.
  pose proof (all_truthy_three _ _ _ Hn0 Hs0 Hm0) as Hvalid0.
  pose proof (no_match_find_existing _ _ _ _ Hnone) as Hno.
  pose proof (register_for_event_creates env w (Event.id ev) req ev name student_id email
                Hfind Hpost Hn Hs Hm Hvalid0 Hno (fresh_existsb Participant.id _ _ Hfresh))
    as Hfirst.
  assert (Hstore : store w1 =
            mkdb (events (store w))
              (participants (store w)
                 ++ [Participant.mk (uuid4 env) (Event.id ev) name student_id email
                       (utcnow env)])
              (attendances (store w))).
  { unfold w1. rewrite Hfirst. reflexivity. }
  split; [now rewrite Hstore|].
  apply (register_for_event_existing env' w1 (Event.id ev) req ev name student_id email
           (Participant.mk (uuid4 env) (Event.id ev) name student_id email (utcnow env)));
    try assumption.
  - now rewrite Hstore.
  - unfold find_existing_participant. rewrite Hstore. cbn [participants].
    rewrite find_snoc by exact Hno.
    cbn. now rewrite !String.eqb_refl.
Qed.

Lemma register_twice_witness :
  let w1 := snd (serve (register_for_event door "EV1" carol_form) registered) in
  participants (store w1) = [alice; bob; carol]
  /\ serve (register_for_event later "EV1" carol_form) w1 =
     (Redirect "/participant/P-NEW/qr",
      mkworld (store w1)
        (flashes w1 ++ [("You are already registered for this event.", "warning")])
        (outbox w1)).
Proof.
  apply (register_twice door later registered "EV1" carol_form ev1
           "Carol" "S300" "c@x.com" registered_consistent).
  - left. reflexivity.
  - reflexivity.
  - reflexivity.
  - reflexivity.
  - reflexivity.
  - reflexivity.
  - discriminate.
  - discriminate.
  - discriminate.
  - intros p [<-|[<-|[]]]; cbn; intros; split; discriminate.
  - intros p [<-|[<-|[]]]; discriminate.
Defined.

(** X6. Whatever it is sent, [register_for_event] leaves the events and the
    attendance rows alone and never removes or alters a participant: the
    participant table is as before, or one row longer, and then the new row
    carries the identifier and the clock of the request and the id of an
    event that exists. *)
Theorem register_only_appends env w event_id req :
  let w' := snd (serve (register_for_event env event_id req) w) in
  events (store w') = events (store w)
  /\ attendances (store w') = attendances (store w)
  /\ (participants (store w') = participants (store w)
      \/ exists new_participant,
           participants (store w') = participants (store w) ++ [new_participant]
           /\ Participant.id new_participant = uuid4 env
           /\ Participant.event_id new_participant = event_id
           /\ Participant.registration_date new_participant = utcnow env
           /\ exists e, In e (events (store w)) /\ Event.id e = event_id).
Proof.
  intros w'. subst w'.
  destruct (register_for_event_store env w event_id req)
    as [Hsame|(ev & name & student_id & email & Hev & _ & Hstore)].
  - rewrite Hsame. repeat split. now left.
  - rewrite Hstore. cbn [events participants attendances].
    destruct (find_event_id _ _ _ Hev) as [Hin Hid].
    repeat split. right. eexists. split; [reflexivity|].
    cbn. repeat split; try assumption. now exists ev.
Qed.

(** ** Invariants over histories *)

(** What an event form can do to the tables. *)
Lemma create_event_store strptime env req w :
  let w' := snd (serve (create_event strptime env req) w) in
  store w' = store w
  \/ exists new_event,
       Event.id new_event = uuid4 env
       /\ Event.created_at new_event = utcnow env
       /\ existsb (fun x => Event.id x =? uuid4 env) (events (store w)) = false
       /\ store w' =
          mkdb (events (store w) ++ [new_event]) (participants (store w))
               (attendances (store w)).
Proof.
  unfold serve, create_event, form_get, add_event.
  destruct (method req); [now left|].
  repeat (rewrite bind_run;
          match goal with
          | |- context [dict_get (form req) ?k] =>
              destruct (dict_get (form req) k); cbn [abort return_ ret Monad_handler];
              [|now left]
          end).
  destruct (strptime _) as [t|].
  - rewrite !bind_run. cbn [get_db].
    destruct (existsb _ _) eqn:Hfresh; cbn -[append]; [now left|].
    right. refine (ex_intro _ _ (conj _ (conj _ (conj _ eq_refl))));
      reflexivity.
  - rewrite !bind_run. cbn. now left.
Qed.

Lemma register_for_event_natural_keys env w event_id req :
  natural_keys_unique (store w) ->
  natural_keys_unique (store (snd (serve (register_for_event env event_id req) w))).
Proof.
  intros Hu.
  destruct (register_for_event_store env w event_id req)
    as [Hsame|(ev & name & student_id & email & _ & Hnone & Hstore)].
  - now rewrite Hsame.
  - rewrite Hstore. intros p q Hp Hq Hev Hkey. cbn [participants] in Hp, Hq.
    apply in_app_iff in Hp, Hq.
    destruct Hp as [Hp|[<-|[]]], Hq as [Hq|[<-|[]]].
    + now apply Hu.
    + exfalso. cbn in Hev, Hkey.
      destruct (find_existing_participant_some _ _ _ _ p Hp Hev Hkey) as [x Hx].
      congruence.
    + exfalso. cbn in Hev, Hkey.
      assert (Hkey' : Participant.student_id q = student_id
                      \/ Participant.email q = email)
        by (destruct Hkey; [left|right]; congruence).
      destruct (find_existing_participant_some _ _ _ _ q Hq (eq_sym Hev) Hkey') as [x Hx].
      congruence.
    + reflexivity.
Qed.

Lemma delete_event_natural_keys w event_id :
  natural_keys_unique (store w) ->
  natural_keys_unique (store (snd (serve (delete_event event_id) w))).
Proof.
  intros Hu.
  destruct (find (fun e => Event.id e =? event_id) (events (store w))) as [e|] eqn:He.
  - rewrite (delete_event_found _ _ _ He). cbn [snd store].
    intros p q Hp Hq. apply delete_cascade_participants in Hp, Hq.
    apply Hu; tauto.
  - now rewrite (delete_event_absent _ _ He).
Qed.

Lemma dispatch_natural_keys strptime c w :
  natural_keys_unique (store w) ->
  natural_keys_unique (store (snd (serve (dispatch strptime c) w))).
Proof.
  intros Hu.
  destruct c as [cenv creq|eid|eid|cenv eid|eid|cenv eid creq|pid|eid|cenv data];
    cbn [dispatch].
  - destruct (create_event_store strptime cenv creq w) as [Hsame|(x & _ & _ & _ & Hstore)].
    + now rewrite Hsame.
    + rewrite Hstore. exact Hu.
  - now rewrite event_details_reads.
  - now apply delete_event_natural_keys.
  - now rewrite event_qr_code_reads.
  - now rewrite live_attendance_reads.
  - now apply register_for_event_natural_keys.
  - now rewrite show_participant_qr_reads.
  - now rewrite checkin_scanner_reads.
  - now rewrite api_checkin_pure.
Qed.

(** X7. Requests served one after the other keep the natural keys unique: if
    no two participants of one event share a student id or an email, the same
    holds after any run of requests, whatever identifiers and clocks they
    draw. *)
Theorem replay_natural_keys strptime calls w :
  natural_keys_unique (store w) ->
  natural_keys_unique (store (replay strptime calls w)).
Proof.
  revert w. induction calls as [|c rest IH]; intros w Hu; [exact Hu|].
  cbn [replay]. apply IH. now apply dispatch_natural_keys.
Qed.

Lemma replay_natural_keys_witness :
  natural_keys_unique
    (store (replay strptime_sample
              [CreateEvent office open_day_form;
               RegisterForEvent door "EV3" carol_form;
               RegisterForEvent later "EV3" carol_form;
               RegisterForEvent later "EV3" nameless_form]
              empty_world)).
Proof.
  apply (replay_natural_keys strptime_sample).
  intros p q [].
Defined.

Lemma replay_consistent_witness :
  consistent
    (store (replay strptime_sample
              [CreateEvent office open_day_form;
               RegisterForEvent door "EV3" carol_form;
               DeleteEvent "EV3"]
              empty_world)).
Proof.
  apply (replay_consistent strptime_sample).
  - intros c env [<-|[<-|[<-|[]]]] Henv; cbn in Henv; try discriminate;
      injection Henv as <-; discriminate.
  - exact empty_world_consistent.
Defined.

(** X9. From the empty database no run of requests ever writes an attendance
    row, since the only insert is the one [api_checkin] never reaches; so the
    live count of every event that exists is 0, whatever has been served. *)
Theorem no_history_checks_in strptime calls :
  let w := replay strptime calls empty_world in
  attendances (store w) = []
  /\ forall event_id,
       (exists e, In e (events (store w)) /\ Event.id e = event_id) ->
       serve (live_attendance event_id) w = (Json 200 [("attendance_count", JNum 0)], w).
Proof.
  intros w.
  assert (Hnone : attendances (store w) = [])
    by (apply replay_no_attendance; reflexivity).
  split; [exact Hnone|].
  intros event_id Hex. destruct (find_event_exists _ _ Hex) as [e He].
  unfold serve, live_attendance.
  rewrite (bind_value _ _ _ _ _ (get_event_or_404_found _ _ _ He)).
  rewrite bind_run. cbn [get_db]. unfold count_attendances. rewrite Hnone. reflexivity.
Qed.

Lemma no_history_checks_in_witness :
  let w := replay strptime_sample
             [CreateEvent office open_day_form;
              RegisterForEvent door "EV3" carol_form;
              ApiCheckin later (checkin_request "P-NEW" "EV3");
              ApiCheckin later (checkin_request "P-NEW" "EV3")]
             empty_world in
  participants (store w) =
    [Participant.mk "P-NEW" "EV3" "Carol" "S300" "c@x.com" 1700000200%Z]
  /\ serve (live_attendance "EV3") w = (Json 200 [("attendance_count", JNum 0)], w).
Proof.
  split; [reflexivity|].
  apply (proj2 (no_history_checks_in strptime_sample
                  [CreateEvent office open_day_form;
                   RegisterForEvent door "EV3" carol_form;
                   ApiCheckin later (checkin_request "P-NEW" "EV3");
                   ApiCheckin later (checkin_request "P-NEW" "EV3")])).
  eexists. split; [left; reflexivity|reflexivity].
Defined.

(** ** Deleting an event *)

Lemma filter_filter_implied {A} (f g : A -> bool) (l : list A) :
  (forall x, f x = true -> g x = true) ->
  filter f (filter g l) = filter f l.
Proof.
  intros H. induction l as [|x l IH]; [reflexivity|].
  cbn. destruct (g x) eqn:Hg; cbn.
  - now rewrite IH.
  - destruct (f x) eqn:Hf; [|exact IH].
    apply H in Hf. congruence.
Qed.

Lemma find_filter_implied {A} (f g : A -> bool) (l : list A) :
  (forall x, f x = true -> g x = true) ->
  find f (filter g l) = find f l.
Proof.
  intros H. induction l as [|x l IH]; [reflexivity|].
  cbn. destruct (g x) eqn:Hg; cbn.
  - now rewrite IH.
  - destruct (f x) eqn:Hf; [|exact IH].
    apply H in Hf. congruence.
Qed.

(** X10. Deleting an event touches no other event: for every other
    identifier the event it names, if any, and the list of its participants
    are after the request what they were before, and no mail is sent.  (When
    the identifier to delete names no event, nothing changes at all.) *)
Theorem delete_event_spares_others w event_id other :
  other <> event_id ->
  let w' := snd (serve (delete_event event_id) w) in
  find (fun e => Event.id e =? other) (events (store w'))
  = find (fun e => Event.id e =? other) (events (store w))
  /\ participants_of other (store w') = participants_of other (store w)
  /\ outbox w' = outbox w.
Proof.
  intros Hneq w'. subst w'.
  destruct (find (fun e => Event.id e =? event_id) (events (store w))) as [e|] eqn:He.
  - rewrite (delete_event_found _ _ _ He). cbn [snd store outbox].
    destruct (find_event_id _ _ _ He) as [_ Hid].
    unfold participants_of, delete_cascade. cbn [events participants].
    repeat split.
    + apply find_filter_implied. intros x Hx. apply String.eqb_eq in Hx.
      apply negb_eqb_true. congruence.
    + apply filter_filter_implied. intros x Hx. apply String.eqb_eq in Hx.
      apply negb_eqb_true. congruence.
  - rewrite (delete_event_absent _ _ He). repeat split.
Qed.

Lemma delete_event_spares_others_witness :
  let w' := snd (serve (delete_event "EV1") checked_in) in
  find (fun e => Event.id e =? "EV2") (events (store w')) = Some ev2
  /\ participants_of "EV2" (store w') = [bob]
  /\ outbox w' = [].
Proof.
  apply (delete_event_spares_others checked_in "EV1" "EV2").
  discriminate.
Defined.

(** X11. After an event of a consistent database is deleted, the QR page of
    each of its former participants answers 404. *)
Theorem delete_event_removes_qr_pages w event_id p :
  consistent (store w) ->
  (exists e, In e (events (store w)) /\ Event.id e = event_id) ->
  In p (participants (store w)) ->
  Participant.event_id p = event_id ->
  let w' := snd (serve (delete_event event_id) w) in
  serve (show_participant_qr (Participant.id p)) w' = (Abort 404, w').
Proof.
  intros Hc Hex Hp Hpe w'. subst w'.
  destruct (find_event_exists _ _ Hex) as [e He].
  destruct (find_event_id _ _ _ He) as [_ Hid].
  rewrite (delete_event_found _ _ _ He). cbn [snd].
  unfold serve, show_participant_qr.
  erewrite bind_return; [reflexivity|].
  unfold get_participant_or_404. rewrite bind_run. cbn [get_db store].
  rewrite (find_absent Participant.id); [reflexivity|].
  intros q Hq Hqid. apply delete_cascade_participants in Hq. destruct Hq as [Hq Hqe].
  pose proof (find_participant_of _ _ Hc Hp) as Hfp.
  pose proof (find_participant_of _ _ Hc Hq) as Hfq.
  rewrite Hqid, Hfp in Hfq. injection Hfq as <-. congruence.
Qed.

Lemma delete_event_removes_qr_pages_witness :
  serve (show_participant_qr "P-ALICE") checked_in =
  (Rendered "participant_qr.html"
     [("participant", TParticipant alice); ("event", TEvent ev1);
      ("qr_svg", TSvg (SvgPathImage "P-ALICE"))], checked_in)
  /\ (let w' := snd (serve (delete_event "EV1") checked_in) in
      serve (show_participant_qr "P-ALICE") w' = (Abort 404, w')).
Proof.
  split; [reflexivity|].
  apply (delete_event_removes_qr_pages checked_in "EV1" alice checked_in_consistent).
  - exists ev1. split; [left|]; reflexivity.
  - left. reflexivity.
  - reflexivity.
Defined.

(** ** Creating an event *)

(** The path of [create_event] that commits. *)
Lemma create_event_commits strptime env req w name date_str time_str location description t :
  method req = POST ->
  dict_get (form req) "name" = Some name ->
  dict_get (form req) "date" = Some date_str ->
  dict_get (form req) "time" = Some time_str ->
  dict_get (form req) "location" = Some location ->
  dict_get (form req) "description" = Some description ->
  strptime (date_str ++ " " ++ time_str)%string = Some t ->
  existsb (fun x => Event.id x =? uuid4 env) (events (store w)) = false ->
  serve (create_event strptime env req) w =
  (Redirect (url_for admin_events_endpoint),
   mkworld
     (mkdb (events (store w)
              ++ [Event.mk (uuid4 env) name t location (Some description) (utcnow env)])
        (participants (store w)) (attendances (store w)))
     (flashes w ++ [("Event created successfully!", "success")])
     (outbox w)).
Proof.
  intros Hpost Hn Hd Ht Hl Hdesc Hparse Hfresh.
  unfold serve, create_event, form_get, add_event. rewrite Hpost.
  rewrite bind_run, Hn. cbn [ret Monad_handler].
  rewrite bind_run, Hd. cbn [ret Monad_handler].
  rewrite bind_run, Ht. cbn [ret Monad_handler].
  rewrite bind_run, Hl. cbn [ret Monad_handler].
  rewrite bind_run, Hdesc. cbn [ret Monad_handler].
  rewrite Hparse. rewrite !bind_run. cbn [get_db Event.id].
  rewrite Hfresh. reflexivity.
Qed.

Lemma filter_none {A} (f : A -> bool) (l : list A) :
  (forall x, In x l -> f x = false) -> filter f l = [].
Proof.
  intros H. induction l as [|x l IH]; [reflexivity|].
  cbn. rewrite (H x) by now left. apply IH. intros y Hy. apply H. now right.
Qed.

(** X12. An event form with the five fields and a date the parser accepts,
    drawing an identifier no event has: the handler appends the event with
    that identifier, the parsed date-time and the clock of the request,
    flashes success and redirects to the admin list; the page of the new
    event then shows it with no participants and an attendance count of 0. *)
Theorem create_event_then_details strptime env w req
    name date_str time_str location description t :
  consistent (store w) ->
  method req = POST ->
  dict_get (form req) "name" = Some name ->
  dict_get (form req) "date" = Some date_str ->
  dict_get (form req) "time" = Some time_str ->
  dict_get (form req) "location" = Some location ->
  dict_get (form req) "description" = Some description ->
  strptime (date_str ++ " " ++ time_str)%string = Some t ->
  (forall e, In e (events (store w)) -> Event.id e <> uuid4 env) ->
  let new_event := Event.mk (uuid4 env) name t location (Some description) (utcnow env) in
  let w1 := snd (serve (create_event strptime env req) w) in
  serve (create_event strptime env req) w =
  (Redirect "/admin/events",
   mkworld
     (mkdb (events (store w) ++ [new_event]) (participants (store w)) (attendances (store w)))
     (flashes w ++ [("Event created successfully!", "success")])
     (outbox w))
  /\ serve (event_details (uuid4 env)) w1 =
     (Rendered "event_details.html"
        [("event", TEvent new_event); ("participants", TParticipants []);
         ("attendance_count", TCount 0)], w1).
Proof.
  intros Hc Hpost Hn Hd Ht Hl Hdesc Hparse Hfresh new_event w1.
  pose proof (create_event_commits strptime env req w _ _ _ _ _ _
                Hpost Hn Hd Ht Hl Hdesc Hparse (fresh_existsb Event.id _ _ Hfresh)) as Hrun.
  split; [exact Hrun|].
  assert (Hstore : store w1 =
            mkdb (events (store w) ++ [new_event]) (participants (store w))
                 (attendances (store w)))
    by (unfold w1; rewrite Hrun; reflexivity).
  unfold serve, event_details.
  erewrite bind_value.
  2:{ apply get_event_or_404_found. rewrite Hstore. cbn [events].
      rewrite find_snoc by (now apply find_absent).
      cbn. now rewrite String.eqb_refl. }
  rewrite bind_run. cbn [get_db]. rewrite Hstore.
  unfold participants_of, count_attendances. cbn [participants attendances Event.id new_event].
  assert (Hps : filter (fun p => Participant.event_id p =? uuid4 env) (participants (store w))
                = []).
  { apply filter_none. intros p Hp. apply String.eqb_neq. intros Heq.
    destruct (participant_fk _ Hc p Hp) as (e & He & Hid).
    apply (Hfresh e He). congruence. }
  assert (Has : filter (fun a => Attendance.event_id a =? uuid4 env) (attendances (store w))
                = []).
  { apply filter_none. intros a Ha. apply String.eqb_neq. intros Heq.
    destruct (attendance_event_fk _ Hc a Ha) as (e & He & Hid).
    apply (Hfresh e He). congruence. }
  rewrite Hps, Has. reflexivity.
Qed.

Lemma create_event_then_details_witness :
  let new_event :=
    Event.mk "EV3" "Open Day" 1704103200%Z "Hall C" (Some "Doors open at ten")
             1700000400%Z in
  let w1 := snd (serve (create_event strptime_sample office open_day_form) registered) in
  serve (create_event strptime_sample office open_day_form) registered =
  (Redirect "/admin/events",
   mkworld (mkdb [ev1; ev2; new_event] [alice; bob] [])
     [("Event created successfully!", "success")] [])
  /\ serve (event_details "EV3") w1 =
     (Rendered "event_details.html"
        [("event", TEvent new_event); ("participants", TParticipants []);
         ("attendance_count", TCount 0)], w1).
Proof.
  apply (create_event_then_details strptime_sample office registered open_day_form
           "Open Day" "2024-01-01" "10:00" "Hall C" "Doors open at ten" 1704103200%Z
           registered_consistent).
  - reflexivity.
  - reflexivity.
  - reflexivity.
  - reflexivity.
  - reflexivity.
  - reflexivity.
  - reflexivity.
  - intros e [<-|[<-|[]]]; discriminate.
Defined.

(** X13. An event form with the five fields whose date and time the parser
    refuses: the handler shows the form again with what was typed, flashes
    "Invalid date or time format.", and creates no event. *)
Theorem create_event_bad_date strptime env w req
    name date_str time_str location description :
  method req = POST ->
  dict_get (form req) "name" = Some name ->
  dict_get (form req) "date" = Some date_str ->
  dict_get (form req) "time" = Some time_str ->
  dict_get (form req) "location" = Some location ->
  dict_get (form req) "description" = Some description ->
  strptime (date_str ++ " " ++ time_str)%string = None ->
  serve (create_event strptime env req) w =
  (Rendered "create_event.html" [("form_data", TForm (form req))],
   mkworld (store w) (flashes w ++ [("Invalid date or time format.", "danger")])
     (outbox w)).
Proof.
  intros Hpost Hn Hd Ht Hl Hdesc Hparse.
  unfold serve, create_event, form_get. rewrite Hpost.
  rewrite bind_run, Hn. cbn [ret Monad_handler].
  rewrite bind_run, Hd. cbn [ret Monad_handler].
  rewrite bind_run, Ht. cbn [ret Monad_handler].
  rewrite bind_run, Hl. cbn [ret Monad_handler].
  rewrite bind_run, Hdesc. cbn [ret Monad_handler].
  rewrite Hparse. reflexivity.
Qed.

Lemma create_event_bad_date_witness :
  serve (create_event strptime_sample office
           (mkrequest POST [("name", "Open Day"); ("date", "01/01/2024"); ("time", "10am");
                            ("location", "Hall C"); ("description", "Doors open at ten")]))
        registered =
  (Rendered "create_event.html"
     [("form_data",
       TForm [("name", "Open Day"); ("date", "01/01/2024"); ("time", "10am");
              ("location", "Hall C"); ("description", "Doors open at ten")])],
   mkworld (store registered) [("Invalid date or time format.", "danger")] []).
Proof.
  apply (create_event_bad_date strptime_sample office registered
           (mkrequest POST [("name", "Open Day"); ("date", "01/01/2024"); ("time", "10am");
                            ("location", "Hall C"); ("description", "Doors open at ten")])
           "Open Day" "01/01/2024" "10am" "Hall C" "Doors open at ten");
    reflexivity.
Defined.

(** ** Registration, then the pages *)

(** X14. After a registration has committed a new participant, the QR page
    the handler redirects to shows that participant, its event and the QR
    code of its identifier, and the event's page lists the event's earlier
    participants followed by the new one, with the attendance count as
    before. *)
Theorem register_then_pages env w event_id req ev name student_id email :
  consistent (store w) ->
  In ev (events (store w)) -> Event.id ev = event_id ->
  method req = POST ->
  dict_get (form req) "name" = Some name ->
  dict_get (form req) "student_id" = Some student_id ->
  dict_get (form req) "email" = Some email ->
  name <> EmptyString -> student_id <> EmptyString -> email <> EmptyString ->
  (forall p, In p (participants (store w)) -> Participant.event_id p = event_id ->
             Participant.student_id p <> student_id /\ Participant.email p <> email) ->
  (forall p, In p (participants (store w)) -> Participant.id p <> uuid4 env) ->
  let new_participant :=
    Participant.mk (uuid4 env) event_id name student_id email (utcnow env) in
  let w1 := snd (serve (register_for_event env event_id req) w) in
  serve (show_participant_qr (uuid4 env)) w1 =
  (Rendered "participant_qr.html"
     [("participant", TParticipant new_participant); ("event", TEvent ev);
      ("qr_svg", TSvg (SvgPathImage (uuid4 env)))], w1)
  /\ serve (event_details event_id) w1 =
     (Rendered "event_details.html"
        [("event", TEvent ev);
         ("participants",
          TParticipants (participants_of event_id (store w) ++ [new_participant]));
         ("attendance_count", TCount (count_attendances event_id (store w)))], w1).
Proof.
  intros Hc He Hid Hpost Hn Hs Hm Hn0 Hs0 Hm0 Hnone Hfresh new_participant w1.
  subst event_id.
  pose proof (find_event_of _ _ Hc He) as Hfind.
  pose proof (register_for_event_creates env w (Event.id ev) req ev name student_id email
                Hfind Hpost Hn Hs Hm (all_truthy_three _ _ _ Hn0 Hs0 Hm0)
                (no_match_find_existing _ _ _ _ Hnone)
                (fresh_existsb Participant.id _ _ Hfresh)) as Hrun.
  assert (Hstore : store w1 =
            mkdb (events (store w)) (participants (store w) ++ [new_participant])
                 (attendances (store w)))
    by (unfold w1; rewrite Hrun; reflexivity).
  assert (Hev1 : get_event_or_404 (Event.id ev) w1 = (Value ev, w1)).
  { apply get_event_or_404_found. now rewrite Hstore. }
  split.
  - unfold serve, show_participant_qr.
    erewrite bind_value.
    2:{ unfold get_participant_or_404. rewrite bind_run. cbn [get_db].
        rewrite Hstore. cbn [participants].
        rewrite find_snoc by (now apply find_absent).
        cbn. rewrite String.eqb_refl. reflexivity. }
    cbn [Participant.event_id new_participant].
    rewrite (bind_value _ _ _ _ _ Hev1). reflexivity.
  - unfold serve, event_details.
    rewrite (bind_value _ _ _ _ _ Hev1).
    rewrite bind_run. cbn [get_db]. rewrite Hstore.
    unfold participants_of, count_attendances. cbn [participants attendances].
    rewrite filter_app. cbn. rewrite String.eqb_refl. reflexivity.
Qed.

Lemma register_then_pages_witness :
  let w1 := snd (serve (register_for_event door "EV1" carol_form) registered) in
  serve (show_participant_qr "P-NEW") w1 =
  (Rendered "participant_qr.html"
     [("participant", TParticipant carol); ("event", TEvent ev1);
      ("qr_svg", TSvg (SvgPathImage "P-NEW"))], w1)
  /\ serve (event_details "EV1") w1 =
     (Rendered "event_details.html"
        [("event", TEvent ev1); ("participants", TParticipants [alice; carol]);
         ("attendance_count", TCount 0)], w1).
Proof.
  apply (register_then_pages door registered "EV1" carol_form ev1
           "Carol" "S300" "c@x.com" registered_consistent).
  - left. reflexivity.
  - reflexivity.
  - reflexivity.
  - reflexivity.
  - reflexivity.
  - reflexivity.
  - discriminate.
  - discriminate.
  - discriminate.
  - intros p [<-|[<-|[]]]; cbn; intros; split; discriminate.
  - intros p [<-|[<-|[]]]; discriminate.
Defined.

(** ** The attendee export *)

(** X15. [download_attendees] never delivers a file.  For an identifier that
    names no event it answers 404; for an event that exists, with or without
    participants, writing the header row hands a [str] to [BytesIO.write],
    which raises [TypeError], so the request ends in a server error before
    any attendee row is written. *)
Theorem download_attendees_never_delivers strftime_full csv_line w event_id :
  ((forall e, In e (events (store w)) -> Event.id e <> event_id) ->
   download_attendees strftime_full csv_line event_id w = DownloadAbort 404)
  /\ ((exists e, In e (events (store w)) /\ Event.id e = event_id) ->
      download_attendees strftime_full csv_line event_id w =
      DownloadError (TypeError "a bytes-like object is required, not 'str'"))
  /\ forall mimetype disposition body,
       download_attendees strftime_full csv_line event_id w
       <> Attachment mimetype disposition body.
Proof.
  unfold download_attendees. repeat split.
  - intros Hnone. now rewrite (find_absent Event.id _ _ Hnone).
  - intros Hex. destruct (find_event_exists _ _ Hex) as [e He]. now rewrite He.
  - intros mimetype disposition body.
    destruct (find _ _); discriminate.
Qed.

Lemma download_attendees_never_delivers_witness :
  download_attendees (fun _ => "2023-11-14 22:13:20") (fun _ => "line") "EV9" checked_in
  = DownloadAbort 404
  /\ download_attendees (fun _ => "2023-11-14 22:13:20") (fun _ => "line") "EV1" checked_in
     = DownloadError (TypeError "a bytes-like object is required, not 'str'").
Proof.
  split.
  - apply (proj1 (download_attendees_never_delivers
                    (fun _ => "2023-11-14 22:13:20") (fun _ => "line") checked_in "EV9")).
    intros e [<-|[<-|[]]]; discriminate.
  - apply (proj1 (proj2 (download_attendees_never_delivers
                    (fun _ => "2023-11-14 22:13:20") (fun _ => "line") checked_in "EV1"))).
    exists ev1. split; [left|]; reflexivity.
Defined.

(** ** The event lists *)

Lemma insert_by_date_desc_perm e l :
  Permutation (e :: l) (insert_by_date_desc e l).
Proof.
  induction l as [|x l IH]; [reflexivity|].
  cbn. destruct (Event.date x <=? Event.date e)%Z; [reflexivity|].
  rewrite perm_swap. now constructor.
Qed.

Lemma insert_by_date_desc_head e l a :
  HdRel not_earlier a l -> not_earlier a e ->
  HdRel not_earlier a (insert_by_date_desc e l).
Proof.
  intros Hl He. destruct l as [|x l]; cbn.
  - now constructor.
  - destruct (Event.date x <=? Event.date e)%Z; constructor; [exact He|].
    now inversion Hl.
Qed.

Lemma insert_by_date_desc_sorted e l :
  Sorted not_earlier l -> Sorted not_earlier (insert_by_date_desc e l).
Proof.
  induction l as [|x l IH]; intros Hs; cbn.
  - repeat constructor.
  - destruct (Z.leb_spec (Event.date x) (Event.date e)) as [Hle|Hgt].
    + constructor; [exact Hs|]. constructor. exact Hle.
    + inversion Hs as [|? ? Hl Hhd]; subst.
      constructor; [now apply IH|].
      apply insert_by_date_desc_head; [exact Hhd|]. unfold not_earlier. lia.
Qed.

(** X16. The public list and the admin list both show every event of the
    table exactly once, ordered so that no event comes before one of a later
    date. *)
Theorem event_lists_sorted w :
  Permutation (events (store w)) (listed (index w))
  /\ Sorted not_earlier (listed (index w))
  /\ listed (admin_events w) = listed (index w).
Proof.
  unfold index, admin_events, order_by_date_desc. cbn [listed].
  repeat split.
  - induction (events (store w)) as [|e l IH]; [reflexivity|].
    cbn. rewrite <- insert_by_date_desc_perm. now constructor.
  - induction (events (store w)) as [|e l IH]; [constructor|].
    cbn. now apply insert_by_date_desc_sorted.
Qed.

(** ** What a check-in can answer *)

